(** * name.py: a command-line list of unique names kept in SQLite

    Shallow embedding of [src/name.py] and the properties of its
    specification.  The program keeps one table
    [names(id INTEGER PRIMARY KEY AUTOINCREMENT, name TEXT NOT NULL UNIQUE)]
    in the file [greetings.db] and offers add, rename, delete, list and
    reset from the command line.

    Layout: the data model, the process state and the effect monad, the
    part of the [sqlite3] module the program calls, the program itself
    (one definition per source function, under the source's name), and
    then the theorems. *)

From Stdlib Require Import String Ascii List ZArith Bool Arith Lia.
From Stdlib Require Import Sorting.Sorted Sorting.Permutation.
Import ListNotations.

Local Open Scope string_scope.
Local Open Scope Z_scope.
Local Open Scope list_scope.

(** ** Data model *)

(** One record of the table [names]. *)
Record row := mkRow { id : Z; name : string }.

(** The table [names]: its rows in rowid order and the AUTOINCREMENT
    counter sqlite keeps for it in [sqlite_sequence]. *)
Record names_table := mkTable { rows : list row; seq : Z }.

(** A database file holds the table or does not hold it yet. *)
Definition database := option names_table.

(** What [sqlite3.connect(DB_NAME)] finds at the path ['greetings.db']:
    a path that cannot be opened, a file that is not an SQLite database
    (the connection opens lazily, every statement then fails), or a
    database. *)
Inductive file_state :=
| Unopenable
| NotADatabase
| Database (d : database).

Definition empty_table : names_table := mkTable [] 0.

Definition names_of (t : names_table) : list string := map name (rows t).

(** The names stored in the file, none when there is no table. *)
Definition stored_names (f : file_state) : list string :=
  match f with
  | Database (Some t) => names_of t
  | _ => []
  end.

(** ** Exceptions, output lines and calls into sqlite3 *)

(** Subclasses of [sqlite3.Error].  The handlers of the program tell
    [IntegrityError] from the rest. *)
Inductive sqlite_error :=
| IntegrityError     (* UNIQUE constraint failed *)
| OperationalError   (* no such table, table already exists, unable to open *)
| DatabaseError      (* file is not a database *)
| ProgrammingError.  (* use of a closed or missing connection *)

Inductive exn :=
| SqliteError (e : sqlite_error)
| ValueError
| EOFError
| SystemExit (code : Z).

(** A value of a result row. *)
Inductive value := VInt (z : Z) | VText (s : string).

(** The lines the program writes, one constructor per [print] or prompt
    of the source (line numbers of name.py). *)
Inductive line :=
| MsgConnectError (e : exn)            (* 23 *)
| MsgCommitError (e : exn)             (* 33 *)
| MsgRolledBack (e : exn)              (* 36 *)
| MsgInitError (e : exn)               (* 55 and 80 *)
| PromptReset                          (* 62 *)
| MsgResetCancelled                    (* 64 *)
| MsgResetDone                         (* 78 *)
| MsgSaved (n : string)                (* 92 *)
| MsgAlreadyExists (n : string)        (* 95 and 127 *)
| MsgDbError (e : exn)                 (* 98, 129, 145, 164 *)
| MsgSameName                          (* 106 *)
| MsgRenamed (o n : string)            (* 120 *)
| MsgFoundNotChanged (o : string)      (* 123 *)
| MsgNotFound (n : string)             (* 125 and 143 *)
| MsgDeleted (n : string)              (* 141 *)
| MsgListHeader                        (* 157 *)
| MsgNoNames                           (* 159 *)
| MsgItem (idx : nat) (v : value)      (* 162 *)
| MsgHelp                              (* 202 *)
| MsgTestStart                         (* 212 *)
| MsgTempInsert                        (* 218 *)
| MsgExpectedError (e : exn)           (* 223 *)
| MsgDbErrorOccurred (e : exn)         (* 226 *)
| MsgTestEnd                           (* 227 *)
| PromptOtherName (current : string)   (* 236 *)
| MsgAddCancelled                      (* 238 *)
| MsgInputInterrupted.                 (* 242 *)

(** The SQL statements of the program. *)
Inductive stmt :=
| CreateTableIfNotExists               (* 47 *)
| DropTableIfExists                    (* 70 *)
| CreateTable                          (* 71 *)
| Insert (n : string)                  (* 90 and 217 *)
| SelectId (n : string)                (* 113 *)
| Update (new old : string)            (* 117 *)
| Delete (n : string)                  (* 138 *)
| SelectNamesOrdered.                  (* 155 *)

(** Every call the program makes into the sqlite3 module is logged; the
    log is how "no store access" and "no query before the insert" are
    stated. *)
Inductive db_call :=
| Connect
| Execute (s : stmt)
| Commit
| Rollback
| Close.

(** ** Process state *)

(** An open [sqlite3.Connection]: what the connection sees
    ([current], which includes the changes of a transaction not yet
    committed), whether a transaction is open, and whether the
    connection was closed.  [usable] is false for a connection to a file
    that is not a database. *)
Record connection := mkConn {
  usable : bool;
  current : database;
  in_transaction : bool;
  closed : bool
}.

(** The state of one run: the file on disk (committed state), the
    [conn] attribute of the one [DatabaseManager] object of [main], the
    lines still to be read from standard input, the lines written and
    the calls made into sqlite3. *)
Record world := mkWorld {
  file : file_state;
  conn : option connection;
  stdin : list string;
  stdout : list line;
  calls : list db_call
}.

Definition set_file (f : file_state) (w : world) : world :=
  mkWorld f (conn w) (stdin w) (stdout w) (calls w).
Definition set_conn (c : option connection) (w : world) : world :=
  mkWorld (file w) c (stdin w) (stdout w) (calls w).
Definition set_stdin (l : list string) (w : world) : world :=
  mkWorld (file w) (conn w) l (stdout w) (calls w).
Definition put_line (l : line) (w : world) : world :=
  mkWorld (file w) (conn w) (stdin w) (stdout w ++ [l]) (calls w).
Definition log_call (c : db_call) (w : world) : world :=
  mkWorld (file w) (conn w) (stdin w) (stdout w) (calls w ++ [c]).

(** A fresh process: no connection yet, nothing written, nothing called. *)
Definition start (f : file_state) (input_lines : list string) : world :=
  mkWorld f None input_lines [] [].

(** ** The effect monad: state and exceptions *)

Definition M (A : Type) : Type := world -> (A + exn) * world.

Definition ret {A} (a : A) : M A := fun w => (inl a, w).

Definition bind {A B} (m : M A) (k : A -> M B) : M B := fun w =>
  match m w with
  | (inl a, w1) => k a w1
  | (inr e, w1) => (inr e, w1)
  end.

Definition raise {A} (e : exn) : M A := fun w => (inr e, w).

Declare Scope prog_scope.
Delimit Scope prog_scope with prog.
Notation "x <- m ;; k" := (bind m (fun x => k))
  (at level 100, m at next level, right associativity) : prog_scope.
Notation "m ;; k" := (bind m (fun _ => k))
  (at level 100, right associativity) : prog_scope.
Local Open Scope prog_scope.

(** [try: m except ...]: the handler table [h] answers [None] for an
    exception no clause matches, which then propagates. *)
Definition try_except {A} (m : M A) (h : exn -> option (M A)) : M A := fun w =>
  match m w with
  | (inl a, w1) => (inl a, w1)
  | (inr e, w1) =>
      match h e with
      | Some k => k w1
      | None => (inr e, w1)
      end
  end.

Definition print (l : line) : M unit := fun w => (inl tt, put_line l w).

(** [input(prompt)]: writes the prompt, then reads one line; [EOFError]
    at the end of the input. *)
Definition input (prompt : line) : M string := fun w =>
  let w1 := put_line prompt w in
  match stdin w1 with
  | [] => (inr EOFError, w1)
  | s :: rest => (inl s, set_stdin rest w1)
  end.

Definition sys_exit {A} (code : Z) : M A := raise (SystemExit code).

(** Python truthiness of the values the program tests. *)
Definition truthy_str (o : option string) : bool :=
  match o with
  | Some s => negb (s =? "")%string
  | None => false
  end.

Definition truthy_pair (o : option (string * string)) : bool :=
  match o with
  | Some _ => true      (* a list of two strings *)
  | None => false
  end.

(** [str.lower()] on the bytes of the string: A-Z to a-z.  No character
    outside ASCII lowers to the letter y, so the test of line 63 agrees
    with Python's on every input. *)
Definition lower_ascii (c : ascii) : ascii :=
  let n := nat_of_ascii c in
  if (Nat.leb 65 n && Nat.leb n 90)%bool then ascii_of_nat (n + 32) else c.

Fixpoint lower (s : string) : string :=
  match s with
  | EmptyString => EmptyString
  | String c s' => String (lower_ascii c) (lower s')
  end.

(** ** The sqlite3 module, as far as the program uses it *)

(** [ORDER BY name]: the BINARY collation compares the bytes of the
    text, a proper prefix first, which is [String.leb]. *)
Fixpoint insert_sorted (x : string) (l : list string) : list string :=
  match l with
  | [] => [x]
  | y :: l' => if String.leb x y then x :: y :: l' else y :: insert_sorted x l'
  end.

Fixpoint sort_names (l : list string) : list string :=
  match l with
  | [] => []
  | x :: l' => insert_sorted x (sort_names l')
  end.

Definition has_name (n : string) (rs : list row) : bool :=
  existsb (fun r => (name r =? n)%string) rs.

(** Rowids are signed 64-bit integers; this is the largest one. *)
Definition MAX_ROWID : Z := 9223372036854775807.

(** The largest rowid of the table, none for an empty table. *)
Fixpoint max_id (rs : list row) : option Z :=
  match rs with
  | [] => None
  | r :: rs' =>
      match max_id rs' with
      | None => Some (id r)
      | Some m => Some (Z.max (id r) m)
      end
  end.

(** AUTOINCREMENT refuses the insert (SQLITE_FULL, "database or disk is
    full") once the largest rowid of the table or the counter has
    reached the largest rowid there is. *)
Definition rowid_full (t : names_table) : bool :=
  (seq t >=? MAX_ROWID)
  || match max_id (rows t) with
     | Some m => m >=? MAX_ROWID
     | None => false
     end.

(** AUTOINCREMENT otherwise: one more than the largest rowid of the
    table (1 for an empty table), and at least one more than the
    counter. *)
Definition next_id (t : names_table) : Z :=
  Z.max (match max_id (rows t) with Some m => m + 1 | None => 1 end)
        (seq t + 1).

Definition insert_row (n : string) (t : names_table) : names_table :=
  mkTable (rows t ++ [mkRow (next_id t) n]) (next_id t).

(** [UPDATE names SET name = new WHERE name = old], row by row against
    the unique index: [done] holds the rows already visited, [todo] the
    rows to come.  [None] is a UNIQUE conflict (the statement is
    undone); otherwise the new rows and the number of rows changed. *)
Fixpoint update_rows (new old : string) (done todo : list row)
  : option (list row * Z) :=
  match todo with
  | [] => Some (done, 0)
  | r :: rest =>
      if (name r =? old)%string then
        if has_name new (done ++ rest) then None
        else match update_rows new old (done ++ [mkRow (id r) new]) rest with
             | Some (rs, k) => Some (rs, k + 1)
             | None => None
             end
      else update_rows new old (done ++ [r]) rest
  end.

Definition delete_rows (n : string) (rs : list row) : list row :=
  filter (fun r => negb (name r =? n)%string) rs.

(** A cursor after [execute]: the rows still to fetch and [rowcount]
    (-1 where sqlite3 does not count). *)
Record cursor := mkCursor { pending : list value; rowcount : Z }.

Definition fetchone (c : cursor) : option value := hd_error (pending c).
Definition fetchall (c : cursor) : list value := pending c.

(** [sqlite3.connect(DB_NAME)]. *)
Definition connect : M connection := fun w =>
  let w1 := log_call Connect w in
  match file w1 with
  | Unopenable => (inr (SqliteError OperationalError), w1)
  | NotADatabase => (inl (mkConn false None false false), w1)
  | Database d => (inl (mkConn true d false false), w1)
  end.

(** A data definition statement (CREATE, DROP) opens no transaction:
    outside one it is written to the file at once, inside one it is
    part of it. *)
Definition run_ddl (c : connection) (d : database) (w : world) : world :=
  let c' := mkConn (usable c) d (in_transaction c) (closed c) in
  if in_transaction c then set_conn (Some c') w
  else set_file (Database d) (set_conn (Some c') w).

(** INSERT, UPDATE and DELETE open a transaction first when none is
    open; their changes stay in the connection until [commit]. *)
Definition begin_dml (c : connection) : connection :=
  mkConn (usable c) (current c) true (closed c).

Definition run_dml (c : connection) (d : database) (w : world) : world :=
  set_conn (Some (mkConn (usable c) d true (closed c))) w.

Definition sql_fail {A} (e : sqlite_error) : M A := raise (SqliteError e).

(** [cursor.execute(sql, params)] on the connection of the manager.
    The statement is prepared first (a file that is no database and a
    missing table fail here), then run: an INSERT takes its rowid
    before the unique index is consulted.  Names are text: a Python
    [str] without a UTF-8 encoding (what the decoding of ill-formed
    bytes leaves) cannot be bound and raises UnicodeEncodeError, which
    this model does not cover; see [utf8]. *)
Definition execute (s : stmt) : M cursor := fun w0 =>
  let w := log_call (Execute s) w0 in
  match conn w with
  | None => sql_fail ProgrammingError w
  | Some c =>
    if closed c then sql_fail ProgrammingError w
    else if negb (usable c) then sql_fail DatabaseError w
    else
      match s, current c with
      | CreateTableIfNotExists, Some _ => (inl (mkCursor [] (-1)), w)
      | CreateTableIfNotExists, None =>
          (inl (mkCursor [] (-1)), run_ddl c (Some empty_table) w)
      | DropTableIfExists, Some _ => (inl (mkCursor [] (-1)), run_ddl c None w)
      | DropTableIfExists, None => (inl (mkCursor [] (-1)), w)
      | CreateTable, Some _ => sql_fail OperationalError w
      | CreateTable, None =>
          (inl (mkCursor [] (-1)), run_ddl c (Some empty_table) w)
      | SelectId n, Some t =>
          (inl (mkCursor
                  (map (fun r => VInt (id r))
                       (filter (fun r => (name r =? n)%string) (rows t)))
                  (-1)), w)
      | SelectNamesOrdered, Some t =>
          (inl (mkCursor (map VText (sort_names (names_of t))) (-1)), w)
      | Insert n, Some t =>
          if rowid_full t
          then sql_fail OperationalError (set_conn (Some (begin_dml c)) w)
          else if has_name n (rows t)
          then sql_fail IntegrityError (set_conn (Some (begin_dml c)) w)
          else (inl (mkCursor [] 1), run_dml c (Some (insert_row n t)) w)
      | Update new old, Some t =>
          match update_rows new old [] (rows t) with
          | None => sql_fail IntegrityError (set_conn (Some (begin_dml c)) w)
          | Some (rs, k) =>
              (inl (mkCursor [] k), run_dml c (Some (mkTable rs (seq t))) w)
          end
      | Delete n, Some t =>
          let rs := delete_rows n (rows t) in
          (inl (mkCursor [] (Z.of_nat (length (rows t) - length rs))),
           run_dml c (Some (mkTable rs (seq t))) w)
      | _, None => sql_fail OperationalError w    (* no such table: names *)
      end
  end.

(** [conn.commit()]: the changes of the connection reach the file. *)
Definition commit : M unit := fun w0 =>
  let w := log_call Commit w0 in
  match conn w with
  | None => sql_fail ProgrammingError w
  | Some c =>
    if closed c then sql_fail ProgrammingError w
    else if usable c
    then (inl tt,
          set_file (Database (current c))
            (set_conn (Some (mkConn true (current c) false false)) w))
    else (inl tt, w)
  end.

(** [conn.rollback()]: the connection goes back to the file's state. *)
Definition rollback : M unit := fun w0 =>
  let w := log_call Rollback w0 in
  match conn w with
  | None => sql_fail ProgrammingError w
  | Some c =>
    if closed c then sql_fail ProgrammingError w
    else
      match file w with
      | Database d => (inl tt, set_conn (Some (mkConn (usable c) d false false)) w)
      | _ => (inl tt, set_conn (Some (mkConn (usable c) (current c) false false)) w)
      end
  end.

(** [conn.close()]: changes not committed are dropped with the
    connection; the attribute keeps the closed object. *)
Definition close : M unit := fun w0 =>
  let w := log_call Close w0 in
  match conn w with
  | None => sql_fail ProgrammingError w
  | Some c =>
      (inl tt,
       set_conn (Some (mkConn (usable c) (current c) (in_transaction c) true)) w)
  end.

(** ** class DatabaseManager *)

(** [__enter__] (17-24): connect and keep the connection in [self.conn];
    a failure to connect is reported and ends the process with code 1. *)
Definition __enter__ : M connection :=
  try_except
    (c <- connect ;;
     fun w => (inl c, set_conn (Some c) w))
    (fun e =>
       match e with
       | SqliteError _ => Some (print (MsgConnectError e) ;; sys_exit 1)
       | _ => None
       end).

(** [__exit__] (26-39): commit without an exception, roll back and
    report with one, close in both cases, and answer [False] so that
    the exception goes on to the caller. *)
Definition __exit__ (exc_val : option exn) : M bool := fun w =>
  match conn w with
  | Some _ =>
      ((match exc_val with
        | None =>
            try_except commit
              (fun e =>
                 match e with
                 | SqliteError _ => Some (print (MsgCommitError e))
                 | _ => None
                 end)
        | Some e =>
            rollback ;;
            print (MsgRolledBack e)
        end) ;;
       close ;;
       ret false) w
  | None => ret false w
  end.

(** [with db_manager as conn: body].  The result is [None] when
    [__exit__] asks to swallow the exception of the body. *)
Definition with_db_manager {A} (body : M A) : M (option A) := fun w =>
  match __enter__ w with
  | (inr e, w1) => (inr e, w1)
  | (inl _, w1) =>
      match body w1 with
      | (inl a, w2) =>
          match __exit__ None w2 with
          | (inl _, w3) => (inl (Some a), w3)
          | (inr e, w3) => (inr e, w3)
          end
      | (inr e, w2) =>
          match __exit__ (Some e) w2 with
          | (inl true, w3) => (inl None, w3)
          | (inl false, w3) => (inr e, w3)
          | (inr e', w3) => (inr e', w3)
          end
      end
  end.

(** The clause [except sqlite3.Error as e: print(...)] shared by the
    repository functions. *)
Definition on_sqlite_error {A} (report : exn -> line) (result : A)
  : exn -> option (M A) :=
  fun e =>
    match e with
    | SqliteError _ => Some (print (report e) ;; ret result)
    | _ => None
    end.

(** ** The repository functions *)

(** [initialize_db] (42-56). *)
Definition initialize_db : M unit :=
  try_except
    (with_db_manager (execute CreateTableIfNotExists) ;;
     ret tt)
    (on_sqlite_error MsgInitError tt).

(** [reset_db] (59-81). *)
Definition reset_db : M unit :=
  confirmation <- input PromptReset ;;
  if negb (lower confirmation =? "y")%string then
    print MsgResetCancelled
  else
    try_except
      (with_db_manager
         (execute DropTableIfExists ;;
          execute CreateTable ;;
          print MsgResetDone) ;;
       ret tt)
      (on_sqlite_error MsgInitError tt).

(** [add_name] (84-99): [True] when the name was stored. *)
Definition add_name (n : string) : M bool :=
  try_except
    (r <- with_db_manager
            (execute (Insert n) ;;
             print (MsgSaved n) ;;
             ret true) ;;
     ret (match r with Some b => b | None => false end))
    (fun e =>
       match e with
       | SqliteError IntegrityError =>
           Some (print (MsgAlreadyExists n) ;; ret false)
       | SqliteError _ => Some (print (MsgDbError e) ;; ret false)
       | _ => None
       end).

(** [update_name] (103-130). *)
Definition update_name (old_name new_name : string) : M unit :=
  if (old_name =? new_name)%string then
    print MsgSameName
  else
    try_except
      (with_db_manager
         (cur <- execute (SelectId old_name) ;;
          match fetchone cur with
          | Some _ =>
              cur' <- execute (Update new_name old_name) ;;
              if rowcount cur' >? 0
              then print (MsgRenamed old_name new_name)
              else print (MsgFoundNotChanged old_name)
          | None => print (MsgNotFound old_name)
          end) ;;
       ret tt)
      (fun e =>
         match e with
         | SqliteError IntegrityError => Some (print (MsgAlreadyExists new_name))
         | SqliteError _ => Some (print (MsgDbError e))
         | _ => None
         end).

(** [delete_name] (133-146). *)
Definition delete_name (n : string) : M unit :=
  try_except
    (with_db_manager
       (cur <- execute (Delete n) ;;
        if rowcount cur >? 0
        then print (MsgDeleted n)
        else print (MsgNotFound n)) ;;
     ret tt)
    (on_sqlite_error MsgDbError tt).

(** The loop of lines 161-162: [idx] counts from 0, the line shows
    [idx + 1]. *)
Fixpoint print_rows (idx : nat) (all_names : list value) : M unit :=
  match all_names with
  | [] => ret tt
  | v :: rest => print (MsgItem (idx + 1) v) ;; print_rows (S idx) rest
  end.

(** [print_all_names] (149-165). *)
Definition print_all_names : M unit :=
  try_except
    (with_db_manager
       (cur <- execute SelectNamesOrdered ;;
        let all_names := fetchall cur in
        print MsgListHeader ;;
        match all_names with
        | [] => print MsgNoNames
        | _ => print_rows 0 all_names
        end) ;;
     ret tt)
    (on_sqlite_error MsgDbError tt).

(** ** The command dispatcher *)

(** The namespace [args] that [parser.parse_args()] returns. *)
Module args.
Record t := mk {
  input : option string;               (* -i NAME *)
  update : option (string * string);   (* -u OLD_NAME NEW_NAME *)
  delete : option string;              (* -d NAME *)
  output : bool;                       (* -o *)
  initialize : bool;                   (* -init *)
  test_error : bool                    (* --test-error *)
}.
End args.

(** [args.input or args.update or args.delete or args.output], as a
    truth value (193). *)
Definition action_specified (a : args.t) : bool :=
  truthy_str (args.input a) || truthy_pair (args.update a)
  || truthy_str (args.delete a) || args.output a.

(** What one turn of the loop of lines 233-243 decides. *)
Inductive loop_control := Break | Continue (new_name : string).

(** The loop [while not add_name(db_manager, current_name)] (233-243).
    Every turn that goes on has read a line, so the loop ends within
    one more turn than there are lines on standard input; [fuel] counts
    the turns. *)
Fixpoint add_loop (fuel : nat) (current_name : string) : M unit :=
  match fuel with
  | O => ret tt
  | S fuel' =>
      added <- add_name current_name ;;
      if added : bool then ret tt
      else
        ctl <- try_except
                 (new_input <- input (PromptOtherName current_name) ;;
                  if (new_input =? "")%string then
                    print MsgAddCancelled ;;
                    ret Break
                  else ret (Continue new_input))
                 (fun e =>
                    match e with
                    | EOFError => Some (print MsgInputInterrupted ;; ret Break)
                    | _ => None
                    end) ;;
        match ctl with
        | Break => ret tt
        | Continue new_input => add_loop fuel' new_input
        end
  end.

Definition add_until_stored (first_name : string) : M unit := fun w =>
  add_loop (S (length (stdin w))) first_name w.

(** The fault injection of lines 211-228. *)
Definition TestErrorName : string := "TestErrorName".

Definition test_error_path : M unit :=
  print MsgTestStart ;;
  try_except
    (with_db_manager
       (execute (Insert TestErrorName) ;;
        print MsgTempInsert ;;
        raise (A := unit) ValueError) ;;
     ret tt)
    (fun e =>
       match e with
       | ValueError => Some (print (MsgExpectedError e))
       | SqliteError _ => Some (print (MsgDbErrorOccurred e))
       | _ => None
       end) ;;
  print MsgTestEnd ;;
  sys_exit 0.

(** [main] (168-251), from the parsed arguments on. *)
Definition main (a : args.t) : M unit :=
  (if args.initialize a then
     reset_db ;;
     sys_exit 0
   else ret tt) ;;
  (if negb (action_specified a) then
     print MsgHelp ;;
     sys_exit 0
   else ret tt) ;;
  (if negb (args.test_error a) then initialize_db else ret tt) ;;
  if args.test_error a then test_error_path
  else if truthy_str (args.input a) then
    match args.input a with
    | Some current_name => add_until_stored current_name
    | None => ret tt
    end
  else if truthy_pair (args.update a) then
    match args.update a with
    | Some (old_name, new_name) => update_name old_name new_name
    | None => ret tt
    end
  else if truthy_str (args.delete a) then
    match args.delete a with
    | Some n => delete_name n
    | None => ret tt
    end
  else if args.output a then print_all_names
  else ret tt.

(** The exit status of the process: 0 when [main] returns, the code of
    [sys.exit], and 1 for an exception nobody caught. *)
Definition exit_code (r : unit + exn) : Z :=
  match r with
  | inl _ => 0
  | inr (SystemExit code) => code
  | inr _ => 1
  end.

Definition run (a : args.t) (w : world) : Z * world :=
  let (r, w') := main a w in (exit_code r, w').

(** ** Vocabulary of the properties *)

(** The connection object a completed scope leaves in the manager. *)
Definition closed_conn (ok : bool) (d : database) : connection :=
  mkConn ok d false true.

(** No two records of the file carry the same name. *)
Definition unique_names (f : file_state) : Prop := NoDup (stored_names f).

(** The operations of the repository. *)
Inductive operation :=
| OpInitialize
| OpAdd (n : string)
| OpRename (old_name new_name : string)
| OpDelete (n : string)
| OpReset.

Definition run_operation (op : operation) : M unit :=
  match op with
  | OpInitialize => initialize_db
  | OpAdd n => add_name n ;; ret tt
  | OpRename old_name new_name => update_name old_name new_name
  | OpDelete n => delete_name n
  | OpReset => reset_db
  end.

(** The files the operations can produce: a file that holds no record
    to begin with, and whatever an operation leaves, whatever the
    rest of the process state (input lines, earlier output) is. *)
Inductive reachable : file_state -> Prop :=
| reach_initial (f : file_state) :
    stored_names f = [] -> reachable f
| reach_step (op : operation) (w : world) :
    reachable (file w) -> reachable (file (snd (run_operation op w))).

(** What an open connection sees after a rollback: the committed state
    of the file. *)
Definition rolled_back (w : world) (c : connection) : connection :=
  match file w with
  | Database d => mkConn (usable c) d false true
  | _ => mkConn (usable c) (current c) false true
  end.

(** The byte order of [ORDER BY name]. *)
Definition name_le (a b : string) : Prop := String.leb a b = true.

(** The lines of a populated listing: the names numbered from
    [idx + 1]. *)
Fixpoint numbered (idx : nat) (ns : list string) : list line :=
  match ns with
  | [] => []
  | n :: rest => MsgItem (idx + 1) (VText n) :: numbered (S idx) rest
  end.

(** What [print_all_names] writes for the names [ns]. *)
Definition listing (ns : list string) : list line :=
  MsgListHeader ::
  match ns with
  | [] => [MsgNoNames]
  | _ => numbered 0 (sort_names ns)
  end.

(** A run of [add_name] over a list of names, with the answers. *)
Fixpoint add_each (ns : list string) : M (list bool) :=
  match ns with
  | [] => ret []
  | n :: rest =>
      added <- add_name n ;;
      others <- add_each rest ;;
      ret (added :: others)
  end.

(** The rows after a successful [UPDATE names SET name = new WHERE
    name = old]: the matching row keeps its id and gets the new name. *)
Definition rename_rows (new old : string) (rs : list row) : list row :=
  map (fun r => if (name r =? old)%string then mkRow (id r) new else r) rs.

(** The rowids of the table are pairwise distinct and none is above
    the AUTOINCREMENT counter. *)
Definition ids_in_order (t : names_table) : Prop :=
  NoDup (map id (rows t)) /\ Forall (fun i => i <= seq t) (map id (rows t)).

Definition ids_ok (f : file_state) : Prop :=
  match f with
  | Database (Some t) => ids_in_order t
  | _ => True
  end.

(** The calls of one scope: [connect] first, [close] last, neither in
    between. *)
Definition inner_call (c : db_call) : bool :=
  match c with
  | Connect | Close => false
  | _ => true
  end.

Definition one_scope (l : list db_call) : bool :=
  match l with
  | Connect :: rest =>
      match rev rest with
      | Close :: mid => forallb inner_call mid
      | _ => false
      end
  | _ => false
  end.

(** Nothing is pending: the connection of the manager is closed, has
    no open transaction, and sees what the file holds. *)
Definition settled (w : world) : Prop :=
  exists c : connection,
    conn w = Some c
    /\ closed c = true
    /\ in_transaction c = false
    /\ file w = (if usable c then Database (current c) else NotADatabase).

(** From [w] to [w']: either sqlite3 was not called and the connection
    attribute is untouched, or exactly one scope was opened, closed and
    left settled. *)
Definition scope_released (w w' : world) : Prop :=
  exists extra : list db_call,
    calls w' = calls w ++ extra
    /\ ((extra = [] /\ conn w' = conn w)
        \/ (one_scope extra = true /\ settled w')).

(** Well-formed UTF-8, byte by byte: the strings that are the encoding
    of a text.  Command-line names and input lines that are not, reach
    the program as a [str] that sqlite3 cannot bind. *)
Definition byte_in (lo hi : nat) (c : ascii) : bool :=
  (Nat.leb lo (nat_of_ascii c) && Nat.leb (nat_of_ascii c) hi)%bool.

Fixpoint utf8 (s : string) : bool :=
  match s with
  | EmptyString => true
  | String c1 s1 =>
      if byte_in 0 127 c1 then utf8 s1
      else
        match s1 with
        | EmptyString => false
        | String c2 s2 =>
            if byte_in 194 223 c1 then byte_in 128 191 c2 && utf8 s2
            else
              match s2 with
              | EmptyString => false
              | String c3 s3 =>
                  if (byte_in 224 224 c1 && byte_in 160 191 c2)
                     || (byte_in 225 236 c1 && byte_in 128 191 c2)
                     || (byte_in 237 237 c1 && byte_in 128 159 c2)
                     || (byte_in 238 239 c1 && byte_in 128 191 c2)
                  then byte_in 128 191 c3 && utf8 s3
                  else
                    match s3 with
                    | EmptyString => false
                    | String c4 s4 =>
                        ((byte_in 240 240 c1 && byte_in 144 191 c2)
                         || (byte_in 241 243 c1 && byte_in 128 191 c2)
                         || (byte_in 244 244 c1 && byte_in 128 143 c2))
                        && byte_in 128 191 c3 && byte_in 128 191 c4
                        && utf8 s4
                    end
              end
        end
  end.

Definition text_option (o : option string) : bool :=
  match o with
  | Some s => utf8 s
  | None => true
  end.

(** The names of the command line and the lines of the input are
    text. *)
Definition text_run (a : args.t) (w : world) : Prop :=
  text_option (args.input a) = true
  /\ match args.update a with
     | Some (old_name, new_name) => utf8 old_name = true /\ utf8 new_name = true
     | None => True
     end
  /\ text_option (args.delete a) = true
  /\ Forall (fun s => utf8 s = true) (stdin w).

(** * Properties *)

(** ** Auxiliary facts on rows and names *)

Lemma has_name_In (n : string) (rs : list row) :
  has_name n rs = true <-> In n (map name rs).
Proof.
  unfold has_name. rewrite existsb_exists, in_map_iff. split.
  - intros [r [Hr E]]. apply String.eqb_eq in E. now exists r.
  - intros [r [E Hr]]. exists r. split; [assumption|]. now apply String.eqb_eq.
Qed.

Lemma has_name_not_In (n : string) (rs : list row) :
  has_name n rs = false <-> ~ In n (map name rs).
Proof.
  rewrite <- has_name_In. destruct (has_name n rs); split; congruence.
Qed.

Lemma filter_name_absent (n : string) (rs : list row) :
  ~ In n (map name rs) -> filter (fun r => (name r =? n)%string) rs = [].
Proof.
  induction rs as [|r rs IH]; simpl; intros H; [reflexivity|].
  destruct (String.eqb_spec (name r) n) as [E|E].
  - exfalso. apply H. now left.
  - apply IH. intros Hin. apply H. now right.
Qed.

(** ** Facts on rowids *)

Lemma max_id_bound (rs : list row) (r : row) :
  In r rs -> exists m : Z, max_id rs = Some m /\ id r <= m.
Proof.
  induction rs as [|r' rs IH]; cbn [In max_id]; intros H; [destruct H|].
  destruct H as [E|H].
  - subst r'. destruct (max_id rs) as [m|]; eexists; split;
      try reflexivity; lia.
  - destruct (IH H) as [m [Hm Hle]]. rewrite Hm. eexists.
    split; [reflexivity|]. lia.
Qed.

Lemma max_id_snoc (rs : list row) (k : Z) (n : string) :
  (forall r : row, In r rs -> id r <= k) ->
  max_id (rs ++ [mkRow k n]) = Some k.
Proof.
  induction rs as [|r rs IH]; cbn [app max_id]; intros H; [reflexivity|].
  rewrite IH by (intros r' Hr'; apply H; now right).
  f_equal. cbn [id]. specialize (H r (or_introl eq_refl)). lia.
Qed.

Lemma next_id_above_seq (t : names_table) : seq t < next_id t.
Proof. unfold next_id. lia. Qed.

Lemma next_id_above_ids (t : names_table) (r : row) :
  In r (rows t) -> id r < next_id t.
Proof.
  intros H. destruct (max_id_bound _ _ H) as [m [Hm Hle]].
  unfold next_id. rewrite Hm. lia.
Qed.

(** The insert is refused exactly when no rowid is left to hand out. *)
Lemma rowid_full_false (t : names_table) :
  rowid_full t = false <-> next_id t <= MAX_ROWID.
Proof.
  unfold rowid_full, next_id. rewrite orb_false_iff.
  destruct (max_id (rows t)) as [m|].
  - rewrite !Z.geb_leb, !Z.leb_gt. unfold MAX_ROWID. lia.
  - rewrite Z.geb_leb, Z.leb_gt. unfold MAX_ROWID. split; [lia|].
    intros H. split; [lia|reflexivity].
Qed.

Lemma next_id_insert_row (n : string) (t : names_table) :
  next_id (insert_row n t) = next_id t + 1.
Proof.
  unfold next_id at 1. unfold insert_row. cbn [rows seq].
  rewrite max_id_snoc; [lia|].
  intros r Hr. apply next_id_above_ids in Hr. lia.
Qed.

(** The rowid of a new record on three tables: an empty one, one whose
    counter is ahead of its rows, and one whose rowids are negative. *)
Example next_id_samples :
  next_id empty_table = 1
  /\ next_id (mkTable [mkRow 1 "Alice"; mkRow 3 "Bob"] 5) = 6
  /\ next_id (mkTable [mkRow (-5) "Alice"] (-10)) = -4.
Proof. repeat split. Qed.

(** Well-formed and ill-formed UTF-8: ASCII, a Hangul syllable (EA B0
    80), the byte FF, an overlong encoding (C0 80) and a surrogate
    (ED A0 80). *)
Example utf8_samples :
  utf8 "Alice" = true
  /\ utf8 (String "234" (String "176" (String "128" ""))) = true
  /\ utf8 (String "255" "") = false
  /\ utf8 (String "192" (String "128" "")) = false
  /\ utf8 (String "237" (String "160" (String "128" ""))) = false.
Proof. repeat split. Qed.

(** ** Symbolic evaluation *)

(** [expose w] names the fields of a process state; [step] runs the
    program as far as the known fields decide, leaving the functions
    on rows and strings folded; [tidy] also brings the output and the
    call log into the shape [before ++ [new lines]]. *)
Ltac expose w :=
  let f := fresh "f" in let c := fresh "c" in let i := fresh "i" in
  let o := fresh "o" in let l := fresh "l" in
  destruct w as [f c i o l];
  cbn [file conn stdin stdout calls] in *; subst.

Ltac step :=
  cbv beta iota zeta delta
    [ret bind raise try_except print input sys_exit sql_fail
     put_line set_conn log_call set_file set_stdin start
     begin_dml run_dml run_ddl closed_conn
     file conn stdin stdout calls
     usable current in_transaction closed
     pending rowcount fetchone fetchall hd_error
     connect execute commit rollback close
     __enter__ __exit__ with_db_manager on_sqlite_error
     initialize_db reset_db add_name update_name delete_name
     print_all_names test_error_path
     fst snd negb].

Ltac tidy := step; rewrite <- ?app_assoc; cbn [app]; try reflexivity.

(** ** Equations of [add_name], one per state of the file *)

Lemma add_name_full (n : string) (w : world) (t : names_table) :
  file w = Database (Some t) ->
  rowid_full t = true ->
  add_name n w =
  (inl false,
   mkWorld (file w) (Some (closed_conn true (Some t))) (stdin w)
     (stdout w ++ [MsgRolledBack (SqliteError OperationalError);
                   MsgDbError (SqliteError OperationalError)])
     (calls w ++ [Connect; Execute (Insert n); Rollback; Close])).
Proof.
  intros Hf Hfull. expose w. step. rewrite Hfull. tidy.
Qed.

(** At the rowid ceiling nothing is stored, duplicate or not. *)
Example add_name_at_the_ceiling :
  add_name "Alice" (start (Database (Some (mkTable [] MAX_ROWID))) []) =
  (inl false,
   mkWorld (Database (Some (mkTable [] MAX_ROWID)))
     (Some (closed_conn true (Some (mkTable [] MAX_ROWID)))) []
     [MsgRolledBack (SqliteError OperationalError);
      MsgDbError (SqliteError OperationalError)]
     [Connect; Execute (Insert "Alice"); Rollback; Close]).
Proof. reflexivity. Qed.

Lemma add_name_duplicate (n : string) (w : world) (t : names_table) :
  file w = Database (Some t) ->
  rowid_full t = false ->
  has_name n (rows t) = true ->
  add_name n w =
  (inl false,
   mkWorld (file w) (Some (closed_conn true (Some t))) (stdin w)
     (stdout w ++ [MsgRolledBack (SqliteError IntegrityError);
                   MsgAlreadyExists n])
     (calls w ++ [Connect; Execute (Insert n); Rollback; Close])).
Proof.
  intros Hf Hroom Hn. expose w. step. rewrite Hroom, Hn. tidy.
Qed.

Lemma add_name_fresh (n : string) (w : world) (t : names_table) :
  file w = Database (Some t) ->
  rowid_full t = false ->
  has_name n (rows t) = false ->
  add_name n w =
  (inl true,
   mkWorld (Database (Some (insert_row n t)))
     (Some (closed_conn true (Some (insert_row n t)))) (stdin w)
     (stdout w ++ [MsgSaved n])
     (calls w ++ [Connect; Execute (Insert n); Commit; Close])).
Proof.
  intros Hf Hroom Hn. expose w. step. rewrite Hroom, Hn. tidy.
Qed.

Lemma add_name_no_table (n : string) (w : world) :
  file w = Database None ->
  add_name n w =
  (inl false,
   mkWorld (file w) (Some (closed_conn true None)) (stdin w)
     (stdout w ++ [MsgRolledBack (SqliteError OperationalError);
                   MsgDbError (SqliteError OperationalError)])
     (calls w ++ [Connect; Execute (Insert n); Rollback; Close])).
Proof.
  intros Hf. expose w. tidy.
Qed.

Lemma add_name_not_a_database (n : string) (w : world) :
  file w = NotADatabase ->
  add_name n w =
  (inl false,
   mkWorld (file w) (Some (closed_conn false None)) (stdin w)
     (stdout w ++ [MsgRolledBack (SqliteError DatabaseError);
                   MsgDbError (SqliteError DatabaseError)])
     (calls w ++ [Connect; Execute (Insert n); Rollback; Close])).
Proof.
  intros Hf. expose w. tidy.
Qed.

Lemma add_name_unopenable (n : string) (w : world) :
  file w = Unopenable ->
  add_name n w =
  (inr (SystemExit 1),
   mkWorld (file w) (conn w) (stdin w)
     (stdout w ++ [MsgConnectError (SqliteError OperationalError)])
     (calls w ++ [Connect])).
Proof.
  intros Hf. expose w. tidy.
Qed.

(** ** The uniqueness invariant *)

Lemma NoDup_insert_middle (new : string) (l1 l2 : list string) (x : string) :
  NoDup (l1 ++ x :: l2) -> ~ In new (l1 ++ l2) -> NoDup (l1 ++ new :: l2).
Proof.
  intros H Hnew. apply NoDup_remove_1 in H.
  revert H Hnew. induction l1 as [|a l1 IH]; simpl; intros H Hnew.
  - constructor; assumption.
  - inversion H as [|? ? Ha Hl]; subst. constructor.
    + rewrite in_app_iff in *. simpl. intros [Hin|[E|Hin]].
      * apply Ha. now left.
      * subst. apply Hnew. now left.
      * apply Ha. now right.
    + apply IH; [assumption|]. intros Hin. apply Hnew. now right.
Qed.

(** An UPDATE that the unique index lets through leaves the names
    pairwise distinct. *)
Lemma update_rows_unique (new old : string) (todo done rs : list row) (k : Z) :
  update_rows new old done todo = Some (rs, k) ->
  NoDup (map name (done ++ todo)) ->
  NoDup (map name rs).
Proof.
  revert done rs k. induction todo as [|r rest IH]; simpl; intros done rs k H Hnd.
  - injection H as <- _. now rewrite app_nil_r in Hnd.
  - destruct (String.eqb_spec (name r) old) as [E|E].
    + destruct (has_name new (done ++ rest)) eqn:Hn; [discriminate|].
      destruct (update_rows new old (done ++ [mkRow (id r) new]) rest)
        as [[rs' k']|] eqn:Hrec; [|discriminate].
      injection H as <- _. apply (IH _ _ _ Hrec).
      rewrite <- app_assoc. simpl.
      rewrite map_app in *. simpl in *.
      apply NoDup_insert_middle with (x := name r); [assumption|].
      rewrite <- map_app. now apply has_name_not_In.
    + apply (IH _ _ _ H). now rewrite <- app_assoc.
Qed.

Lemma delete_rows_unique (n : string) (rs : list row) :
  NoDup (map name rs) -> NoDup (map name (delete_rows n rs)).
Proof.
  unfold delete_rows. induction rs as [|r rs IH]; simpl; intros H; [constructor|].
  inversion H as [|? ? Hr Hrs]; subst.
  destruct (negb (name r =? n)%string); simpl; [|now apply IH].
  constructor; [|now apply IH].
  intros Hin. apply Hr. apply in_map_iff in Hin as [r' [E Hr']].
  apply filter_In in Hr' as [Hr' _]. apply in_map_iff. now exists r'.
Qed.

Lemma NoDup_snoc (x : string) (l : list string) :
  NoDup l -> ~ In x l -> NoDup (l ++ [x]).
Proof.
  induction l as [|a l IH]; simpl; intros Hnd Hx.
  - constructor; [intros []|constructor].
  - inversion Hnd as [|? ? Ha Hl]; subst. constructor.
    + rewrite in_app_iff. simpl. intros [Hin|[E|[]]]; [now apply Ha|].
      subst. apply Hx. now left.
    + apply IH; [assumption|]. intros Hin. apply Hx. now right.
Qed.

Lemma insert_row_unique (n : string) (t : names_table) :
  has_name n (rows t) = false ->
  NoDup (names_of t) -> NoDup (names_of (insert_row n t)).
Proof.
  intros Hn Hnd. unfold names_of, insert_row in *. cbn [rows].
  rewrite map_app. cbn [map name].
  apply NoDup_snoc; [assumption|]. now apply has_name_not_In.
Qed.

Lemma initialize_db_unique (w : world) :
  unique_names (file w) -> unique_names (file (snd (initialize_db w))).
Proof.
  unfold unique_names. intros H. expose w.
  destruct f as [| |[t|]]; step; assumption.
Qed.

Lemma add_name_unique (n : string) (w : world) :
  unique_names (file w) -> unique_names (file (snd (add_name n w))).
Proof.
  unfold unique_names. intros H.
  destruct (file w) as [| |[t|]] eqn:Hf.
  - rewrite add_name_unopenable by assumption. cbn [snd file].
    now rewrite Hf.
  - rewrite add_name_not_a_database by assumption. cbn [snd file].
    now rewrite Hf.
  - destruct (rowid_full t) eqn:Hroom.
    { rewrite (add_name_full n w t) by assumption. cbn [snd file].
      now rewrite Hf. }
    destruct (has_name n (rows t)) eqn:Hn.
    + rewrite (add_name_duplicate n w t) by assumption. cbn [snd file].
      now rewrite Hf.
    + rewrite (add_name_fresh n w t) by assumption. cbn [snd file].
      now apply insert_row_unique.
  - rewrite add_name_no_table by assumption. cbn [snd file].
    now rewrite Hf.
Qed.

Lemma update_name_unique (old_name new_name : string) (w : world) :
  unique_names (file w) ->
  unique_names (file (snd (update_name old_name new_name w))).
Proof.
  unfold unique_names. intros H. expose w. step.
  destruct (old_name =? new_name)%string; [exact H|].
  destruct f as [| |[t|]]; step; try assumption.
  destruct (filter (fun r => (name r =? old_name)%string) (rows t));
    cbn [map]; step; [assumption|].
  destruct (update_rows new_name old_name [] (rows t)) as [[rs k]|] eqn:Hu;
    step; [|assumption].
  assert (Hrs : NoDup (map name rs))
    by (apply (update_rows_unique _ _ _ _ _ _ Hu); exact H).
  destruct (k >? 0); step; exact Hrs.
Qed.

Lemma delete_name_unique (n : string) (w : world) :
  unique_names (file w) -> unique_names (file (snd (delete_name n w))).
Proof.
  unfold unique_names. intros H. expose w.
  destruct f as [| |[t|]]; step; try assumption.
  destruct (Z.of_nat (length (rows t) - length (delete_rows n (rows t))) >? 0);
    step; now apply delete_rows_unique.
Qed.

Lemma reset_db_unique (w : world) :
  unique_names (file w) -> unique_names (file (snd (reset_db w))).
Proof.
  unfold unique_names. intros H. expose w.
  destruct i as [|s rest]; step; [assumption|].
  destruct (lower s =? "y")%string; step; [|assumption].
  destruct f as [| |[t|]]; step; try assumption; constructor.
Qed.

Lemma run_operation_unique (op : operation) (w : world) :
  unique_names (file w) -> unique_names (file (snd (run_operation op w))).
Proof.
  intros H. destruct op as [|n|o n|n|]; simpl.
  - now apply initialize_db_unique.
  - unfold bind. pose proof (add_name_unique n w H) as Ha.
    destruct (add_name n w) as [[b|e] w']; exact Ha.
  - now apply update_name_unique.
  - now apply delete_name_unique.
  - now apply reset_db_unique.
Qed.

(** C1. Uniqueness invariant: each of Initialize, Add, Rename, Delete and
    Reset, run on any process state whose file has pairwise distinct
    names, leaves a file with pairwise distinct names; hence every
    file reachable by any sequence of these operations from a file
    without records has no two records with the same name (names are
    compared as they are, byte for byte). *)
Theorem names_stay_unique :
  (forall (op : operation) (w : world),
      unique_names (file w) ->
      unique_names (file (snd (run_operation op w))))
  /\ (forall f : file_state, reachable f -> unique_names f).
Proof.
  split.
  - exact run_operation_unique.
  - intros f H. induction H as [f Hf|op w _ IH].
    + unfold unique_names. rewrite Hf. constructor.
    + now apply run_operation_unique.
Qed.

Lemma names_stay_unique_witness :
  unique_names
    (file (snd (run_operation (OpAdd "Alice")
                  (start (Database (Some (mkTable [mkRow 1 "Bob"] 1))) []))))
  /\ unique_names
       (file (snd (run_operation (OpRename "Bob" "Alice")
                     (start (Database None) [])))).
Proof.
  split.
  - apply (proj1 names_stay_unique).
    unfold unique_names. cbn. constructor; [intros []|constructor].
  - apply (proj2 names_stay_unique).
    apply reach_step. apply reach_initial. reflexivity.
Defined.

(** ** Adding a name that is already stored *)

Lemma count_occ_unique (n : string) (l : list string) :
  NoDup l -> In n l -> count_occ string_dec l n = 1%nat.
Proof.
  intros Hnd Hin. now apply (proj1 (NoDup_count_occ' string_dec l) Hnd).
Qed.

Lemma In_insert_row (n : string) (t : names_table) :
  In n (names_of (insert_row n t)).
Proof.
  unfold names_of, insert_row. cbn [rows]. rewrite map_app, in_app_iff.
  right. now left.
Qed.

(** C2. On every store that already holds [n] and has a rowid left to
    hand out, [add_name n] fails with the duplicate-name error: the only
    statement it runs is the INSERT (no query before it), the unique
    index rejects it with IntegrityError, the scope rolls back, the
    duplicate is reported and the caller gets [False]; the file is
    unchanged and, names being unique, still holds exactly one record
    for [n].  In particular, adding [n] twice to a store with unique
    names and two rowids left makes the second call fail this way, with
    exactly one record for [n] in the file.  (At the rowid ceiling
    sqlite refuses every INSERT before it looks at the index, see
    [add_name_full].) *)
Theorem add_existing_name_fails :
  (forall (w : world) (t : names_table) (n : string),
      file w = Database (Some t) ->
      rowid_full t = false ->
      In n (names_of t) ->
      let (r, w') := add_name n w in
      r = inl false
      /\ calls w' = calls w ++ [Connect; Execute (Insert n); Rollback; Close]
      /\ stdout w' = stdout w ++ [MsgRolledBack (SqliteError IntegrityError);
                                  MsgAlreadyExists n]
      /\ file w' = file w
      /\ (unique_names (file w) ->
          count_occ string_dec (stored_names (file w')) n = 1%nat))
  /\ (forall (w : world) (t : names_table) (n : string),
         file w = Database (Some t) ->
         next_id t < MAX_ROWID ->
         unique_names (file w) ->
         let (r1, w1) := add_name n w in
         let (r2, w2) := add_name n w1 in
         r2 = inl false
         /\ calls w2 = calls w1 ++ [Connect; Execute (Insert n); Rollback; Close]
         /\ stdout w2 = stdout w1 ++ [MsgRolledBack (SqliteError IntegrityError);
                                      MsgAlreadyExists n]
         /\ file w2 = file w1
         /\ count_occ string_dec (stored_names (file w2)) n = 1%nat).
Proof.
  assert (Hdup : forall w t n,
             file w = Database (Some t) -> rowid_full t = false ->
             In n (names_of t) ->
             let (r, w') := add_name n w in
             r = inl false
             /\ calls w' = calls w ++ [Connect; Execute (Insert n); Rollback; Close]
             /\ stdout w' = stdout w ++ [MsgRolledBack (SqliteError IntegrityError);
                                         MsgAlreadyExists n]
             /\ file w' = file w
             /\ (unique_names (file w) ->
                 count_occ string_dec (stored_names (file w')) n = 1%nat)).
  { intros w t n Hf Hroom Hin.
    rewrite (add_name_duplicate n w t Hf Hroom) by now apply has_name_In.
    cbn [file calls stdout]. repeat split.
    unfold unique_names. rewrite Hf. cbn [stored_names]. intros Hnd.
    now apply count_occ_unique. }
  split; [exact Hdup|].
  intros w t n Hf Hroom2 Hnd.
  assert (Hroom : rowid_full t = false) by (apply rowid_full_false; lia).
  destruct (has_name n (rows t)) eqn:Hn.
  - (* already stored: both calls fail *)
    rewrite (add_name_duplicate n w t Hf Hroom Hn).
    set (w1 := mkWorld _ _ _ _ _).
    assert (Hf1 : file w1 = Database (Some t)) by exact Hf.
    pose proof (Hdup w1 t n Hf1 Hroom (proj1 (has_name_In n (rows t)) Hn)) as H.
    destruct (add_name n w1) as [r2 w2].
    destruct H as (Hr & Hc & Ho & Hfile & Hcount).
    repeat split; try assumption.
    apply Hcount. unfold unique_names. rewrite Hf1.
    unfold unique_names in Hnd. now rewrite Hf in Hnd.
  - (* the first call stores the name, the second fails *)
    rewrite (add_name_fresh n w t Hf Hroom Hn).
    set (w1 := mkWorld _ _ _ _ _).
    assert (Hf1 : file w1 = Database (Some (insert_row n t))) by reflexivity.
    assert (Hroom1 : rowid_full (insert_row n t) = false)
      by (apply rowid_full_false; rewrite next_id_insert_row; lia).
    pose proof (Hdup w1 (insert_row n t) n Hf1 Hroom1 (In_insert_row n t)) as H.
    destruct (add_name n w1) as [r2 w2].
    destruct H as (Hr & Hc & Ho & Hfile & Hcount).
    repeat split; try assumption.
    apply Hcount. unfold unique_names. rewrite Hf1. cbn [stored_names].
    apply insert_row_unique; [assumption|].
    unfold unique_names in Hnd. now rewrite Hf in Hnd.
Qed.

Lemma add_existing_name_fails_witness :
  (let (r, w') :=
     add_name "Alice" (start (Database (Some (mkTable [mkRow 1 "Alice"] 1))) [])
   in r = inl false
      /\ calls w' = [Connect; Execute (Insert "Alice"); Rollback; Close]
      /\ stdout w' = [MsgRolledBack (SqliteError IntegrityError);
                      MsgAlreadyExists "Alice"]
      /\ file w' = Database (Some (mkTable [mkRow 1 "Alice"] 1))
      /\ (unique_names (Database (Some (mkTable [mkRow 1 "Alice"] 1))) ->
          count_occ string_dec (stored_names (file w')) "Alice" = 1%nat))
  /\ (let (r1, w1) := add_name "Alice" (start (Database (Some empty_table)) []) in
      let (r2, w2) := add_name "Alice" w1 in
      r2 = inl false
      /\ calls w2 = calls w1 ++ [Connect; Execute (Insert "Alice"); Rollback; Close]
      /\ stdout w2 = stdout w1 ++ [MsgRolledBack (SqliteError IntegrityError);
                                   MsgAlreadyExists "Alice"]
      /\ file w2 = file w1
      /\ count_occ string_dec (stored_names (file w2)) "Alice" = 1%nat).
Proof.
  split.
  - apply (proj1 add_existing_name_fails
             (start (Database (Some (mkTable [mkRow 1 "Alice"] 1))) [])
             (mkTable [mkRow 1 "Alice"] 1) "Alice").
    + reflexivity.
    + reflexivity.
    + cbn. now left.
  - apply (proj2 add_existing_name_fails
             (start (Database (Some empty_table)) []) empty_table "Alice").
    + reflexivity.
    + reflexivity.
    + unfold unique_names. cbn. constructor.
Defined.

(** ** Renaming *)

Lemma initialize_db_database (w : world) (d : database) :
  file w = Database d ->
  initialize_db w =
  (inl tt,
   let t := match d with Some t => t | None => empty_table end in
   mkWorld (Database (Some t)) (Some (closed_conn true (Some t))) (stdin w)
     (stdout w)
     (calls w ++ [Connect; Execute CreateTableIfNotExists; Commit; Close])).
Proof.
  intros Hf. expose w. destruct d as [t|]; tidy.
Qed.

Lemma update_name_absent (old_name new_name : string) (w : world)
      (t : names_table) :
  file w = Database (Some t) ->
  old_name <> new_name ->
  ~ In old_name (names_of t) ->
  update_name old_name new_name w =
  (inl tt,
   mkWorld (file w) (Some (closed_conn true (Some t))) (stdin w)
     (stdout w ++ [MsgNotFound old_name])
     (calls w ++ [Connect; Execute (SelectId old_name); Commit; Close])).
Proof.
  intros Hf Hne Hin. expose w. step.
  destruct (String.eqb_spec old_name new_name) as [E|_]; [contradiction|].
  step. rewrite (filter_name_absent old_name (rows t) Hin). cbn [map]. tidy.
Qed.

(** C6, as the claim states it, fails: a database whose table has not
    been created stores no "Bob", yet renaming "Bob" finds no table to
    look in, the scope rolls back and a database error is written
    instead of "not found". *)
Lemma rename_without_table_reports_error :
  ~ In "Bob" (stored_names (Database None))
  /\ "Bob" <> "Carol"
  /\ update_name "Bob" "Carol" (start (Database None) []) =
     (inl tt,
      mkWorld (Database None) (Some (closed_conn true None)) []
        [MsgRolledBack (SqliteError OperationalError);
         MsgDbError (SqliteError OperationalError)]
        [Connect; Execute (SelectId "Bob"); Rollback; Close]).
Proof.
  split; [intros []|]. split; [discriminate|reflexivity].
Qed.

(** C6, amended. On a store whose table exists, when [old] is not
    stored and differs from [new], renaming looks [old] up with one
    SELECT, reports "not found" as an ordinary line (no exception
    reaches the caller, the scope commits) and leaves the file as it
    was.  Through the command [-u old new] this holds on every
    database, because the dispatcher creates a missing table before
    the lookup: the records are unchanged and the process ends with
    code 0. *)
Theorem rename_absent_reports_not_found :
  (forall (w : world) (t : names_table) (old_name new_name : string),
      file w = Database (Some t) ->
      old_name <> new_name ->
      ~ In old_name (names_of t) ->
      let (r, w') := update_name old_name new_name w in
      r = inl tt
      /\ stdout w' = stdout w ++ [MsgNotFound old_name]
      /\ calls w' = calls w ++ [Connect; Execute (SelectId old_name); Commit; Close]
      /\ file w' = file w)
  /\ (forall (w : world) (d : database) (old_name new_name : string),
         file w = Database d ->
         old_name <> new_name ->
         ~ In old_name (stored_names (file w)) ->
         let (code, w') :=
           run (args.mk None (Some (old_name, new_name)) None false false false) w
         in
         code = 0
         /\ stdout w' = stdout w ++ [MsgNotFound old_name]
         /\ stored_names (file w') = stored_names (file w)).
Proof.
  split.
  - intros w t old_name new_name Hf Hne Hin.
    rewrite (update_name_absent old_name new_name w t Hf Hne Hin).
    cbn [file stdout calls]. repeat split.
  - intros w d old_name new_name Hf Hne Hin.
    unfold run, main. cbn [args.initialize args.test_error negb].
    unfold action_specified.
    cbn [args.input args.update args.delete args.output truthy_str truthy_pair
         orb negb].
    unfold bind at 1. cbn [ret]. unfold bind at 1. cbn [ret].
    unfold bind at 1. rewrite (initialize_db_database w d Hf).
    set (t := match d with Some t => t | None => empty_table end).
    cbv zeta. set (w1 := mkWorld _ _ _ _ _).
    assert (Hf1 : file w1 = Database (Some t)) by reflexivity.
    assert (Hin1 : ~ In old_name (names_of t)).
    { rewrite Hf in Hin. subst t. destruct d as [t|]; [exact Hin|intros []]. }
    rewrite (update_name_absent old_name new_name w1 t Hf1 Hne Hin1).
    cbn [exit_code file stdout calls]. subst w1. cbn [stdout].
    repeat split. rewrite Hf. subst t. now destruct d.
Qed.

Lemma rename_absent_reports_not_found_witness :
  (let (r, w') :=
     update_name "Bob" "Carol"
       (start (Database (Some (mkTable [mkRow 1 "Alice"] 1))) [])
   in r = inl tt
      /\ stdout w' = [MsgNotFound "Bob"]
      /\ calls w' = [Connect; Execute (SelectId "Bob"); Commit; Close]
      /\ file w' = Database (Some (mkTable [mkRow 1 "Alice"] 1)))
  /\ (let (code, w') :=
        run (args.mk None (Some ("Bob", "Carol")) None false false false)
          (start (Database None) [])
      in code = 0
         /\ stdout w' = [MsgNotFound "Bob"]
         /\ stored_names (file w') = []).
Proof.
  split.
  - apply (proj1 rename_absent_reports_not_found
             (start (Database (Some (mkTable [mkRow 1 "Alice"] 1))) [])
             (mkTable [mkRow 1 "Alice"] 1) "Bob" "Carol").
    + reflexivity.
    + discriminate.
    + cbn. intros [E|[]]. discriminate E.
  - apply (proj2 rename_absent_reports_not_found
             (start (Database None) []) None "Bob" "Carol").
    + reflexivity.
    + discriminate.
    + cbn. intros [].
Defined.

(** C7. Renaming a name to itself is a no-op on every process state,
    whether the name is stored or not: the one line "the old and the
    new name are the same" is written, nothing is called in sqlite3 and
    the file, the connection and the input are untouched. *)
Theorem rename_to_same_name_is_noop :
  forall (a : string) (w : world),
    update_name a a w =
    (inl tt,
     mkWorld (file w) (conn w) (stdin w) (stdout w ++ [MsgSameName]) (calls w)).
Proof.
  intros a w. unfold update_name. rewrite String.eqb_refl. reflexivity.
Qed.

(** ** The dispatcher without an action *)

Lemma main_without_action (a : args.t) (w : world) :
  args.initialize a = false ->
  action_specified a = false ->
  run a w =
  (0, mkWorld (file w) (conn w) (stdin w) (stdout w ++ [MsgHelp]) (calls w)).
Proof.
  intros Hi Ha. unfold run, main. rewrite Hi, Ha. reflexivity.
Qed.

(** C10. With [--test-error] and none of [-i], [-u], [-d], [-o], and
    without [-init], the program writes the help text and ends with
    code 0: the test for "no action" comes before the fault injection
    and does not count [--test-error], so nothing of the injection is
    written, nothing is called in sqlite3 and the file is untouched. *)
Theorem test_error_alone_prints_help :
  forall (a : args.t) (w : world),
    args.test_error a = true ->
    args.input a = None ->
    args.update a = None ->
    args.delete a = None ->
    args.output a = false ->
    args.initialize a = false ->
    run a w =
    (0, mkWorld (file w) (conn w) (stdin w) (stdout w ++ [MsgHelp]) (calls w)).
Proof.
  intros a w _ Hi Hu Hd Ho Hinit. apply main_without_action; [assumption|].
  unfold action_specified. now rewrite Hi, Hu, Hd, Ho.
Qed.

Lemma test_error_alone_prints_help_witness :
  run (args.mk None None None false false true)
      (start (Database (Some (mkTable [mkRow 1 "Alice"] 1))) ["y"])
  = (0, mkWorld (Database (Some (mkTable [mkRow 1 "Alice"] 1))) None ["y"]
          [MsgHelp] []).
Proof.
  apply (test_error_alone_prints_help
           (args.mk None None None false false true)
           (start (Database (Some (mkTable [mkRow 1 "Alice"] 1))) ["y"]));
    reflexivity.
Defined.

(** ** Leaving a scope with an error *)

Lemma exit_with_error (e : exn) (w : world) (c : connection) :
  conn w = Some c ->
  closed c = false ->
  __exit__ (Some e) w =
  (inl false,
   mkWorld (file w) (Some (rolled_back w c)) (stdin w)
     (stdout w ++ [MsgRolledBack e])
     (calls w ++ [Rollback; Close])).
Proof.
  intros Hc Hopen. expose w. destruct c as [u d tx cl].
  cbn [closed] in Hopen. subst cl.
  unfold rolled_back. cbn [file]. destruct f as [| |d']; tidy.
Qed.

Lemma with_db_manager_reraises {A : Type} (body : M A) (e : exn)
      (w w1 w2 : world) (c c2 : connection) :
  __enter__ w = (inl c, w1) ->
  body w1 = (inr e, w2) ->
  conn w2 = Some c2 ->
  closed c2 = false ->
  with_db_manager body w =
  (inr e,
   mkWorld (file w2) (Some (rolled_back w2 c2)) (stdin w2)
     (stdout w2 ++ [MsgRolledBack e])
     (calls w2 ++ [Rollback; Close])).
Proof.
  intros He Hb Hc Hopen. unfold with_db_manager.
  rewrite He, Hb, (exit_with_error e w2 c2 Hc Hopen). reflexivity.
Qed.

Lemma test_error_inserts_and_rolls_back (a : args.t) (w : world)
      (t : names_table) :
  args.test_error a = true ->
  args.initialize a = false ->
  action_specified a = true ->
  file w = Database (Some t) ->
  ~ In TestErrorName (names_of t) ->
  run a w =
  (0,
   mkWorld (file w) (Some (closed_conn true (Some t))) (stdin w)
     (stdout w ++
      (if rowid_full t
       then [MsgTestStart; MsgRolledBack (SqliteError OperationalError);
             MsgDbErrorOccurred (SqliteError OperationalError); MsgTestEnd]
       else [MsgTestStart; MsgTempInsert; MsgRolledBack ValueError;
             MsgExpectedError ValueError; MsgTestEnd]))
     (calls w ++ [Connect; Execute (Insert TestErrorName); Rollback; Close])).
Proof.
  intros Ht Hi Ha Hf Hin. apply has_name_not_In in Hin.
  unfold run, main. rewrite Ht, Hi, Ha. expose w. step.
  destruct (rowid_full t); [tidy|]. rewrite Hin. tidy.
Qed.

Lemma test_error_keeps_file (a : args.t) (w : world) :
  args.test_error a = true ->
  args.initialize a = false ->
  action_specified a = true ->
  file (snd (run a w)) = file w.
Proof.
  intros Ht Hi Ha. unfold run, main. rewrite Ht, Hi, Ha. expose w.
  destruct f as [| |[t|]]; step; try reflexivity.
  destruct (rowid_full t); [reflexivity|].
  destruct (has_name TestErrorName (rows t)); reflexivity.
Qed.

(** C3. Whatever exception [e] leaves the body of a scope whose
    connection is open, [__exit__] calls [rollback] (the connection is
    back at the committed state of the file and no transaction is
    open), writes the line that says changes were rolled back, calls
    [close], and answers [False], so that [with db_manager] raises [e]
    itself to its caller; the file is what it was when [e] was raised.
    Consequently the fault injection ([--test-error] with an action
    flag), on a store that does not hold "TestErrorName", ends with
    code 0 and a file that is unchanged and does not hold
    "TestErrorName": its INSERT goes through, the injected ValueError
    follows and the rollback is reported (at the rowid ceiling, where
    sqlite refuses the INSERT, the lines are those of a database error
    instead); and on every process state the injection leaves the file
    as it found it. *)
Theorem error_in_scope_rolls_back :
  (forall (A : Type) (body : M A) (e : exn) (w w1 w2 : world)
          (c c2 : connection),
      __enter__ w = (inl c, w1) ->
      body w1 = (inr e, w2) ->
      conn w2 = Some c2 ->
      closed c2 = false ->
      __exit__ (Some e) w2 =
        (inl false,
         mkWorld (file w2) (Some (rolled_back w2 c2)) (stdin w2)
           (stdout w2 ++ [MsgRolledBack e])
           (calls w2 ++ [Rollback; Close]))
      /\ with_db_manager body w =
           (inr e,
            mkWorld (file w2) (Some (rolled_back w2 c2)) (stdin w2)
              (stdout w2 ++ [MsgRolledBack e])
              (calls w2 ++ [Rollback; Close]))
      /\ closed (rolled_back w2 c2) = true
      /\ in_transaction (rolled_back w2 c2) = false
      /\ (forall d, file w2 = Database d -> current (rolled_back w2 c2) = d))
  /\ (forall (a : args.t) (w : world) (t : names_table),
         args.test_error a = true ->
         args.initialize a = false ->
         action_specified a = true ->
         file w = Database (Some t) ->
         ~ In TestErrorName (names_of t) ->
         let (code, w') := run a w in
         code = 0
         /\ stdout w' =
            stdout w ++
            (if rowid_full t
             then [MsgTestStart; MsgRolledBack (SqliteError OperationalError);
                   MsgDbErrorOccurred (SqliteError OperationalError);
                   MsgTestEnd]
             else [MsgTestStart; MsgTempInsert; MsgRolledBack ValueError;
                   MsgExpectedError ValueError; MsgTestEnd])
         /\ calls w' = calls w ++ [Connect; Execute (Insert TestErrorName);
                                   Rollback; Close]
         /\ file w' = file w
         /\ ~ In TestErrorName (stored_names (file w')))
  /\ (forall (a : args.t) (w : world),
         args.test_error a = true ->
         args.initialize a = false ->
         action_specified a = true ->
         file (snd (run a w)) = file w).
Proof.
  split; [|split].
  - intros A body e w w1 w2 c c2 He Hb Hc Hopen.
    split; [now apply exit_with_error|].
    split; [now apply (with_db_manager_reraises body e w w1 w2 c c2)|].
    unfold rolled_back.
    destruct (file w2) as [| |d'] eqn:Hf; cbn [closed in_transaction current];
      repeat split; try discriminate.
    intros d Hd. now injection Hd.
  - intros a w t Ht Hi Ha Hf Hin.
    rewrite (test_error_inserts_and_rolls_back a w t Ht Hi Ha Hf Hin).
    cbn [file stdout calls]. repeat split.
    rewrite Hf. exact Hin.
  - exact test_error_keeps_file.
Qed.

Lemma error_in_scope_rolls_back_witness :
  (let w := start (Database (Some empty_table)) [] in
   let c := mkConn true (Some empty_table) false false in
   let w1 := mkWorld (Database (Some empty_table)) (Some c) [] [] [Connect] in
   let c2 := mkConn true (Some (insert_row TestErrorName empty_table)) true false in
   let w2 := mkWorld (Database (Some empty_table)) (Some c2) [] [MsgTempInsert]
               [Connect; Execute (Insert TestErrorName)] in
   let body := execute (Insert TestErrorName) ;; print MsgTempInsert ;;
               raise (A := unit) ValueError in
   with_db_manager body w =
     (inr ValueError,
      mkWorld (Database (Some empty_table))
        (Some (closed_conn true (Some empty_table))) []
        [MsgTempInsert; MsgRolledBack ValueError]
        [Connect; Execute (Insert TestErrorName); Rollback; Close]))
  /\ (let (code, w') :=
        run (args.mk None None None true false true)
          (start (Database (Some (mkTable [mkRow 1 "Alice"] 1))) [])
      in code = 0
         /\ stdout w' = [MsgTestStart; MsgTempInsert; MsgRolledBack ValueError;
                         MsgExpectedError ValueError; MsgTestEnd]
         /\ calls w' = [Connect; Execute (Insert TestErrorName); Rollback; Close]
         /\ file w' = Database (Some (mkTable [mkRow 1 "Alice"] 1))
         /\ ~ In TestErrorName (stored_names (file w')))
  /\ file (snd (run (args.mk None None None true false true)
                  (start (Database (Some (mkTable [mkRow 1 TestErrorName] 1))) [])))
     = Database (Some (mkTable [mkRow 1 TestErrorName] 1)).
Proof.
  split; [|split].
  - cbv zeta.
    refine (proj1 (proj2 (proj1 error_in_scope_rolls_back unit _ ValueError
              (start (Database (Some empty_table)) [])
              (mkWorld (Database (Some empty_table))
                 (Some (mkConn true (Some empty_table) false false))
                 [] [] [Connect])
              (mkWorld (Database (Some empty_table))
                 (Some (mkConn true
                          (Some (insert_row TestErrorName empty_table))
                          true false))
                 [] [MsgTempInsert] [Connect; Execute (Insert TestErrorName)])
              (mkConn true (Some empty_table) false false)
              (mkConn true (Some (insert_row TestErrorName empty_table))
                 true false)
              _ _ _ _))); reflexivity.
  - apply (proj1 (proj2 error_in_scope_rolls_back)
             (args.mk None None None true false true)
             (start (Database (Some (mkTable [mkRow 1 "Alice"] 1))) [])
             (mkTable [mkRow 1 "Alice"] 1)); try reflexivity.
    cbn. intros [E|[]]. discriminate E.
  - apply (proj2 (proj2 error_in_scope_rolls_back)
             (args.mk None None None true false true)
             (start (Database (Some (mkTable [mkRow 1 TestErrorName] 1))) []));
      reflexivity.
Defined.

(** ** Reset and its confirmation *)

Lemma lower_ascii_y (c : ascii) :
  lower_ascii c = "y"%char -> c = "y"%char \/ c = "Y"%char.
Proof.
  destruct c as [[] [] [] [] [] [] [] []]; cbv; intros H;
    first [discriminate H | now left | now right].
Qed.

Lemma lower_is_y (s : string) : lower s = "y" <-> s = "y" \/ s = "Y".
Proof.
  split.
  - destruct s as [|c [|c' s']]; cbn [lower]; intros H; try discriminate H.
    injection H as Hc. destruct (lower_ascii_y c Hc); subst; auto.
  - intros [-> | ->]; reflexivity.
Qed.

Lemma reset_db_declined (w : world) (s : string) (rest : list string) :
  stdin w = s :: rest ->
  lower s <> "y" ->
  reset_db w =
  (inl tt,
   mkWorld (file w) (conn w) rest
     (stdout w ++ [PromptReset; MsgResetCancelled]) (calls w)).
Proof.
  intros Hin Hs. expose w. step.
  destruct (String.eqb_spec (lower s) "y") as [E|_]; [contradiction|]. tidy.
Qed.

Lemma reset_db_confirmed (w : world) (s : string) (rest : list string)
      (d : database) :
  stdin w = s :: rest ->
  lower s = "y" ->
  file w = Database d ->
  reset_db w =
  (inl tt,
   mkWorld (Database (Some empty_table))
     (Some (closed_conn true (Some empty_table))) rest
     (stdout w ++ [PromptReset; MsgResetDone])
     (calls w ++ [Connect; Execute DropTableIfExists; Execute CreateTable;
                  Commit; Close])).
Proof.
  intros Hin Hs Hf. expose w. step. rewrite Hs.
  change ("y" =? "y")%string with true. destruct d as [t|]; tidy.
Qed.

(** C5, as the claim states it, fails: the answer "Y" is not 'y', yet
    the reset goes ahead and the record of the store is gone. *)
Lemma reset_proceeds_on_capital_Y :
  "Y" <> "y"
  /\ reset_db (start (Database (Some (mkTable [mkRow 1 "Alice"] 1))) ["Y"]) =
     (inl tt,
      mkWorld (Database (Some empty_table))
        (Some (closed_conn true (Some empty_table))) []
        [PromptReset; MsgResetDone]
        [Connect; Execute DropTableIfExists; Execute CreateTable; Commit; Close]).
Proof.
  split; [discriminate|reflexivity].
Qed.

(** C5, amended. Reset reads one line of confirmation and proceeds
    exactly when its lower-case form is "y", that is for "y" and for
    "Y"; every other line declines.  On decline nothing is called in
    sqlite3, the function returns without an exception and the file and
    the connection are unchanged.  On confirmation, for every
    database, the table is dropped and created again inside one scope
    and the file holds a table with zero records afterwards. *)
Theorem reset_proceeds_on_lowercased_y :
  forall (w : world) (s : string) (rest : list string),
    stdin w = s :: rest ->
    (lower s = "y" <-> s = "y" \/ s = "Y")
    /\ (lower s <> "y" ->
        reset_db w =
        (inl tt,
         mkWorld (file w) (conn w) rest
           (stdout w ++ [PromptReset; MsgResetCancelled]) (calls w)))
    /\ (lower s = "y" ->
        forall d : database,
          file w = Database d ->
          reset_db w =
          (inl tt,
           mkWorld (Database (Some empty_table))
             (Some (closed_conn true (Some empty_table))) rest
             (stdout w ++ [PromptReset; MsgResetDone])
             (calls w ++ [Connect; Execute DropTableIfExists;
                          Execute CreateTable; Commit; Close]))
          /\ stored_names (file (snd (reset_db w))) = []).
Proof.
  intros w s rest Hin. split; [apply lower_is_y|]. split.
  - intros Hs. now apply reset_db_declined with (s := s).
  - intros Hs d Hf.
    rewrite (reset_db_confirmed w s rest d Hin Hs Hf). split; reflexivity.
Qed.

Lemma reset_proceeds_on_lowercased_y_witness :
  (reset_db (start (Database (Some (mkTable [mkRow 1 "Alice"] 1))) ["n"]) =
   (inl tt,
    mkWorld (Database (Some (mkTable [mkRow 1 "Alice"] 1))) None []
      [PromptReset; MsgResetCancelled] []))
  /\ (reset_db (start (Database (Some (mkTable [mkRow 1 "Alice"] 1))) ["y"]) =
      (inl tt,
       mkWorld (Database (Some empty_table))
         (Some (closed_conn true (Some empty_table))) []
         [PromptReset; MsgResetDone]
         [Connect; Execute DropTableIfExists; Execute CreateTable;
          Commit; Close])
      /\ stored_names
           (file (snd (reset_db
                         (start (Database (Some (mkTable [mkRow 1 "Alice"] 1)))
                            ["y"])))) = []).
Proof.
  split.
  - apply (proj1 (proj2 (reset_proceeds_on_lowercased_y
                           (start (Database (Some (mkTable [mkRow 1 "Alice"] 1)))
                              ["n"])
                           "n" [] eq_refl))).
    discriminate.
  - apply (proj2 (proj2 (reset_proceeds_on_lowercased_y
                           (start (Database (Some (mkTable [mkRow 1 "Alice"] 1)))
                              ["y"])
                           "y" [] eq_refl)) eq_refl
             (Some (mkTable [mkRow 1 "Alice"] 1)) eq_refl).
Defined.

(** ** Listing *)

Lemma ascii_compare_N (a b : ascii) :
  Ascii.compare a b = N.compare (N_of_ascii a) (N_of_ascii b).
Proof. reflexivity. Qed.

Lemma name_le_trans (s1 s2 s3 : string) :
  name_le s1 s2 -> name_le s2 s3 -> name_le s1 s3.
Proof.
  unfold name_le, String.leb. revert s2 s3.
  induction s1 as [|c1 s1 IH]; intros [|c2 s2] [|c3 s3]; cbn [String.compare];
    try congruence.
  rewrite !ascii_compare_N.
  destruct (N.compare_spec (N_of_ascii c1) (N_of_ascii c2)) as [E12|L12|G12];
    destruct (N.compare_spec (N_of_ascii c2) (N_of_ascii c3)) as [E23|L23|G23];
    destruct (N.compare_spec (N_of_ascii c1) (N_of_ascii c3)) as [E13|L13|G13];
    try congruence; try lia.
  apply IH.
Qed.

Lemma name_le_total (a b : string) : name_le a b \/ name_le b a.
Proof. apply String.leb_total. Qed.

Lemma insert_sorted_perm (x : string) (l : list string) :
  Permutation (x :: l) (insert_sorted x l).
Proof.
  induction l as [|y l IH]; cbn [insert_sorted]; [reflexivity|].
  destruct (String.leb x y); [reflexivity|].
  rewrite perm_swap. now constructor.
Qed.

Lemma sort_names_perm (l : list string) : Permutation l (sort_names l).
Proof.
  induction l as [|x l IH]; cbn [sort_names]; [constructor|].
  rewrite <- insert_sorted_perm. now constructor.
Qed.

Lemma insert_sorted_Forall (P : string -> Prop) (x : string) (l : list string) :
  P x -> Forall P l -> Forall P (insert_sorted x l).
Proof.
  intros Hx Hl. apply (Permutation_Forall (insert_sorted_perm x l)).
  now constructor.
Qed.

Lemma insert_sorted_sorted (x : string) (l : list string) :
  StronglySorted name_le l -> StronglySorted name_le (insert_sorted x l).
Proof.
  induction l as [|y l IH]; cbn [insert_sorted]; intros Hs.
  - constructor; constructor.
  - inversion Hs as [|? ? Hl Hy]; subst.
    destruct (String.leb x y) eqn:E.
    + constructor; [assumption|]. constructor; [exact E|].
      eapply Forall_impl; [|exact Hy].
      intros z Hz. now apply name_le_trans with (s2 := y).
    + constructor; [now apply IH|].
      apply insert_sorted_Forall; [|assumption].
      destruct (name_le_total x y) as [H|H]; [|exact H].
      unfold name_le in H. congruence.
Qed.

Lemma sort_names_sorted (l : list string) : StronglySorted name_le (sort_names l).
Proof.
  induction l as [|x l IH]; cbn [sort_names]; [constructor|].
  now apply insert_sorted_sorted.
Qed.

Lemma sort_names_nil (l : list string) : sort_names l = [] -> l = [].
Proof.
  intros H. apply Permutation_nil. rewrite <- H. symmetry. apply sort_names_perm.
Qed.

Lemma print_rows_numbered (ns : list string) (idx : nat) (w : world) :
  print_rows idx (map VText ns) w =
  (inl tt,
   mkWorld (file w) (conn w) (stdin w) (stdout w ++ numbered idx ns) (calls w)).
Proof.
  revert idx w. induction ns as [|n rest IH]; intros idx w;
    cbn [map print_rows numbered].
  - unfold ret. rewrite app_nil_r. now destruct w.
  - unfold bind, print. rewrite IH. unfold put_line.
    cbn [file conn stdin stdout calls]. now rewrite <- app_assoc.
Qed.

Lemma numbered_has_no_empty_notice (idx : nat) (ns : list string) :
  ~ In MsgNoNames (numbered idx ns).
Proof.
  revert idx. induction ns as [|n rest IH]; intros idx; cbn [numbered In].
  - intros [].
  - intros [E|Hin]; [discriminate E|]. now apply (IH (S idx)).
Qed.

Lemma print_all_names_table (w : world) (t : names_table) :
  file w = Database (Some t) ->
  print_all_names w =
  (inl tt,
   mkWorld (file w) (Some (closed_conn true (Some t))) (stdin w)
     (stdout w ++ listing (names_of t))
     (calls w ++ [Connect; Execute SelectNamesOrdered; Commit; Close])).
Proof.
  intros Hf. expose w. unfold listing.
  destruct (names_of t) as [|n ns] eqn:Hn.
  - step. rewrite Hn. cbn [sort_names map]. tidy.
  - step. rewrite Hn.
    destruct (sort_names (n :: ns)) as [|x xs] eqn:Hs;
      [apply sort_names_nil in Hs; discriminate Hs|].
    cbn [map]. change (VText x :: map VText xs) with (map VText (x :: xs)).
    rewrite print_rows_numbered. tidy.
Qed.

Lemma names_of_insert_row (n : string) (t : names_table) :
  names_of (insert_row n t) = names_of t ++ [n].
Proof.
  unfold names_of, insert_row. cbn [rows]. now rewrite map_app.
Qed.

Lemma add_each_distinct (ns : list string) (w : world) (t : names_table) :
  file w = Database (Some t) ->
  next_id t + Z.of_nat (length ns) <= MAX_ROWID + 1 ->
  NoDup (names_of t ++ ns) ->
  exists (w1 : world) (t1 : names_table),
    add_each ns w = (inl (map (fun _ => true) ns), w1)
    /\ file w1 = Database (Some t1)
    /\ names_of t1 = names_of t ++ ns
    /\ stdout w1 = stdout w ++ map MsgSaved ns.
Proof.
  revert w t. induction ns as [|n rest IH]; intros w t Hf Hroom Hnd.
  - exists w, t. cbn [add_each map]. rewrite !app_nil_r. now repeat split.
  - assert (Hn : has_name n (rows t) = false).
    { apply has_name_not_In. intros Hin.
      apply NoDup_remove_2 in Hnd. apply Hnd.
      rewrite in_app_iff. now left. }
    cbn [length] in Hroom.
    assert (Hfree : rowid_full t = false) by (apply rowid_full_false; lia).
    cbn [add_each]. unfold bind at 1.
    rewrite (add_name_fresh n w t Hf Hfree Hn).
    set (w' := mkWorld _ _ _ _ _).
    destruct (IH w' (insert_row n t) eq_refl) as (w1 & t1 & Hrun & Hf1 & Hn1 & Ho1).
    { rewrite next_id_insert_row. lia. }
    { rewrite names_of_insert_row, <- app_assoc. exact Hnd. }
    exists w1, t1. unfold bind. rewrite Hrun. unfold ret. cbn [map].
    repeat split; try assumption.
    + rewrite Hn1, names_of_insert_row, <- app_assoc. reflexivity.
    + rewrite Ho1. subst w'. cbn [stdout]. rewrite <- app_assoc. reflexivity.
Qed.

(** C4. Starting from a store whose table is empty, adding pairwise
    distinct names - no more of them than there are rowids left to
    hand out - succeeds every time and stores exactly those names;
    [print_all_names] then writes the header followed by exactly those
    names, numbered from 1, in ascending byte-lexicographic order
    ([sort_names ns] is a permutation of [ns] in which every name is
    below or equal to all later ones), and leaves the file alone.  An
    empty store is told apart: it gets the line "no names stored",
    which never occurs in a populated listing. *)
Theorem list_after_distinct_adds :
  forall (ns : list string) (w : world) (t : names_table),
    file w = Database (Some t) ->
    rows t = [] ->
    next_id t + Z.of_nat (length ns) <= MAX_ROWID + 1 ->
    NoDup ns ->
    exists w1 : world,
      add_each ns w = (inl (map (fun _ => true) ns), w1)
      /\ stored_names (file w1) = ns
      /\ (let (r, w2) := print_all_names w1 in
          r = inl tt
          /\ stdout w2 =
             stdout w1 ++ MsgListHeader ::
               match ns with
               | [] => [MsgNoNames]
               | _ => numbered 0 (sort_names ns)
               end
          /\ file w2 = file w1)
      /\ Permutation ns (sort_names ns)
      /\ StronglySorted name_le (sort_names ns)
      /\ ~ In MsgNoNames (numbered 0 (sort_names ns)).
Proof.
  intros ns w t Hf Hrows Hroom Hnd.
  assert (Hempty : names_of t = []) by (unfold names_of; now rewrite Hrows).
  destruct (add_each_distinct ns w t Hf Hroom)
    as (w1 & t1 & Hrun & Hf1 & Hn1 & _).
  { now rewrite Hempty. }
  rewrite Hempty in Hn1. cbn [app] in Hn1.
  exists w1. split; [exact Hrun|].
  split; [rewrite Hf1; exact Hn1|].
  split.
  - rewrite (print_all_names_table w1 t1 Hf1). cbn [stdout file].
    unfold listing. rewrite Hn1. now repeat split.
  - split; [apply sort_names_perm|].
    split; [apply sort_names_sorted|apply numbered_has_no_empty_notice].
Qed.

Lemma list_after_distinct_adds_witness :
  exists w1 : world,
    add_each ["Bob"; "Alice"; "Carol"] (start (Database (Some empty_table)) [])
    = (inl (map (fun _ => true) ["Bob"; "Alice"; "Carol"]), w1)
    /\ stored_names (file w1) = ["Bob"; "Alice"; "Carol"]
    /\ (let (r, w2) := print_all_names w1 in
        r = inl tt
        /\ stdout w2 =
           stdout w1 ++ MsgListHeader ::
             numbered 0 (sort_names ["Bob"; "Alice"; "Carol"])
        /\ file w2 = file w1)
    /\ Permutation ["Bob"; "Alice"; "Carol"] (sort_names ["Bob"; "Alice"; "Carol"])
    /\ StronglySorted name_le (sort_names ["Bob"; "Alice"; "Carol"])
    /\ ~ In MsgNoNames (numbered 0 (sort_names ["Bob"; "Alice"; "Carol"])).
Proof.
  apply (list_after_distinct_adds ["Bob"; "Alice"; "Carol"]
           (start (Database (Some empty_table)) []) empty_table).
  - reflexivity.
  - reflexivity.
  - discriminate.
  - repeat constructor; cbn; intuition discriminate.
Defined.

(** The listing of the witness, computed. *)
Example listing_of_three :
  listing ["Bob"; "Alice"; "Carol"] =
  [MsgListHeader; MsgItem 1 (VText "Alice"); MsgItem 2 (VText "Bob");
   MsgItem 3 (VText "Carol")].
Proof. reflexivity. Qed.

(** ** The retry loop of [-i] *)

Lemma add_name_stdin (n : string) (w : world) :
  stdin (snd (add_name n w)) = stdin w.
Proof.
  destruct (file w) as [| |[t|]] eqn:Hf.
  - now rewrite add_name_unopenable.
  - now rewrite add_name_not_a_database.
  - destruct (rowid_full t) eqn:Hroom;
      [now rewrite (add_name_full n w t)|].
    destruct (has_name n (rows t)) eqn:Hn.
    + now rewrite (add_name_duplicate n w t).
    + now rewrite (add_name_fresh n w t).
  - now rewrite add_name_no_table.
Qed.

(** One turn of the loop: the prompt for another name follows every
    [False] of [add_name]. *)
Lemma add_loop_turn (fuel : nat) (n : string) (w : world) :
  add_loop (S fuel) n w =
  match add_name n w with
  | (inl true, w1) => (inl tt, w1)
  | (inl false, w1) =>
      let w2 := put_line (PromptOtherName n) w1 in
      match stdin w1 with
      | [] => (inl tt, put_line MsgInputInterrupted w2)
      | s :: rest =>
          if (s =? "")%string
          then (inl tt, put_line MsgAddCancelled (set_stdin rest w2))
          else add_loop fuel s (set_stdin rest w2)
      end
  | (inr e, w1) => (inr e, w1)
  end.
Proof.
  cbn [add_loop]. unfold bind at 1.
  destruct (add_name n w) as [[[|]|e] w1]; try reflexivity.
  destruct w1 as [f1 c1 i1 o1 l1]. step.
  destruct i1 as [|s rest]; [reflexivity|].
  destruct (s =? "")%string; reflexivity.
Qed.

(** The loop does not depend on the fuel once there is more of it than
    lines of input: it never runs out. *)
Lemma add_loop_fuel (fuel k : nat) (n : string) (w : world) :
  (length (stdin w) < fuel)%nat ->
  (length (stdin w) < k)%nat ->
  add_loop fuel n w = add_loop k n w.
Proof.
  revert k n w. induction fuel as [|fuel IH]; intros k n w Hfuel Hk; [lia|].
  destruct k as [|k]; [lia|]. rewrite !add_loop_turn.
  pose proof (add_name_stdin n w) as Hin.
  destruct (add_name n w) as [[[|]|e] w1]; try reflexivity.
  cbn [snd] in Hin. cbv zeta.
  destruct (stdin w1) as [|s rest]; [reflexivity|].
  destruct (s =? "")%string; [reflexivity|].
  rewrite <- Hin in Hfuel, Hk. cbn [length] in Hfuel, Hk.
  destruct w1 as [f1 c1 i1 o1 l1].
  apply IH; cbn [stdin put_line set_stdin]; lia.
Qed.

(** The turn, as [main] runs the loop. *)
Lemma add_until_stored_turn (n : string) (w : world) :
  add_until_stored n w =
  match add_name n w with
  | (inl true, w1) => (inl tt, w1)
  | (inl false, w1) =>
      let w2 := put_line (PromptOtherName n) w1 in
      match stdin w1 with
      | [] => (inl tt, put_line MsgInputInterrupted w2)
      | s :: rest =>
          if (s =? "")%string
          then (inl tt, put_line MsgAddCancelled (set_stdin rest w2))
          else add_until_stored s (set_stdin rest w2)
      end
  | (inr e, w1) => (inr e, w1)
  end.
Proof.
  unfold add_until_stored. rewrite add_loop_turn.
  pose proof (add_name_stdin n w) as Hin.
  destruct (add_name n w) as [[[|]|e] w1]; try reflexivity.
  cbn [snd] in Hin. cbv zeta.
  destruct (stdin w1) as [|s rest] eqn:Hs; [reflexivity|].
  destruct (s =? "")%string; [reflexivity|].
  destruct w1 as [f1 c1 i1 o1 l1]. cbn [stdin put_line set_stdin] in *.
  apply add_loop_fuel; cbn [stdin set_stdin];
    [rewrite <- Hin; cbn [length]; lia | lia].
Qed.

(** C8, the code at the failing input.  [greetings.db] is not an SQLite
    database, the command is [-i Alice] and the input holds one empty
    line: the INSERT fails with a DatabaseError, which is no duplicate,
    [add_name] reports the database error, and [main] still asks for
    another name with the prompt that says the name already exists. *)
Lemma add_prompts_after_storage_failure :
  run (args.mk (Some "Alice") None None false false false)
      (start NotADatabase [""])
  = (0,
     mkWorld NotADatabase (Some (closed_conn false None)) []
       [MsgRolledBack (SqliteError DatabaseError);
        MsgInitError (SqliteError DatabaseError);
        MsgRolledBack (SqliteError DatabaseError);
        MsgDbError (SqliteError DatabaseError);
        PromptOtherName "Alice";
        MsgAddCancelled]
       [Connect; Execute CreateTableIfNotExists; Rollback; Close;
        Connect; Execute (Insert "Alice"); Rollback; Close]).
Proof. reflexivity. Qed.

(** The same on the repository function alone, for a database whose
    table is missing: the failure is an OperationalError and the turn of
    the loop prompts all the same. *)
Example add_prompts_without_table :
  add_until_stored "Alice" (start (Database None) ["Bob"]) =
  (inl tt,
   mkWorld (Database None) (Some (closed_conn true None)) []
     [MsgRolledBack (SqliteError OperationalError);
      MsgDbError (SqliteError OperationalError);
      PromptOtherName "Alice";
      MsgRolledBack (SqliteError OperationalError);
      MsgDbError (SqliteError OperationalError);
      PromptOtherName "Bob";
      MsgInputInterrupted]
     [Connect; Execute (Insert "Alice"); Rollback; Close;
      Connect; Execute (Insert "Bob"); Rollback; Close]).
Proof. reflexivity. Qed.

(** ** Exit status *)

(** C9, the code at the failing input.  The command is [-init] and
    standard input is at its end: [input] raises EOFError inside
    [reset_db], nobody catches it and the process ends with status 1,
    although the store can be opened (it is not even touched). *)
Lemma reset_at_end_of_input_exits_1 :
  run (args.mk None None None false true false)
      (start (Database (Some (mkTable [mkRow 1 "Alice"] 1))) [])
  = (1,
     mkWorld (Database (Some (mkTable [mkRow 1 "Alice"] 1))) None []
       [PromptReset] []).
Proof. reflexivity. Qed.

(** On a file that can be opened the repository functions return. *)
Lemma initialize_db_returns (w : world) :
  file w <> Unopenable ->
  fst (initialize_db w) = inl tt /\ file (snd (initialize_db w)) <> Unopenable.
Proof.
  intros Hf. expose w.
  destruct f as [| |[t|]]; [contradiction| | |]; step; split;
    solve [reflexivity | discriminate].
Qed.

Lemma add_name_returns (n : string) (w : world) :
  file w <> Unopenable ->
  (exists b : bool, fst (add_name n w) = inl b)
  /\ file (snd (add_name n w)) <> Unopenable.
Proof.
  intros Hne. destruct (file w) as [| |[t|]] eqn:Hf; [contradiction| | |].
  - rewrite add_name_not_a_database by assumption. cbn [fst snd file].
    rewrite Hf. split; [now exists false|discriminate].
  - destruct (rowid_full t) eqn:Hroom.
    { rewrite (add_name_full n w t) by assumption. cbn [fst snd file].
      rewrite Hf. split; [now exists false|discriminate]. }
    destruct (has_name n (rows t)) eqn:Hn.
    + rewrite (add_name_duplicate n w t) by assumption. cbn [fst snd file].
      rewrite Hf. split; [now exists false|discriminate].
    + rewrite (add_name_fresh n w t) by assumption. cbn [fst snd file].
      split; [now exists true|discriminate].
  - rewrite add_name_no_table by assumption. cbn [fst snd file].
    rewrite Hf. split; [now exists false|discriminate].
Qed.

Lemma add_loop_returns (fuel : nat) (n : string) (w : world) :
  file w <> Unopenable -> fst (add_loop fuel n w) = inl tt.
Proof.
  revert n w. induction fuel as [|fuel IH]; intros n w Hne; [reflexivity|].
  rewrite add_loop_turn.
  destruct (add_name_returns n w Hne) as [[b Hb] Hfile].
  destruct (add_name n w) as [r w1]. cbn [fst snd] in *. subst r.
  destruct b; [reflexivity|]. cbv zeta.
  destruct (stdin w1) as [|s rest]; [reflexivity|].
  destruct (s =? "")%string; [reflexivity|].
  apply IH. now destruct w1.
Qed.

Lemma update_name_returns (old_name new_name : string) (w : world) :
  file w <> Unopenable -> fst (update_name old_name new_name w) = inl tt.
Proof.
  intros Hf. expose w. step.
  destruct (old_name =? new_name)%string; [reflexivity|].
  destruct f as [| |[t|]]; [contradiction| | |]; step; try reflexivity.
  destruct (filter (fun r => (name r =? old_name)%string) (rows t));
    cbn [map]; step; [reflexivity|].
  destruct (update_rows new_name old_name [] (rows t)) as [[rs k]|];
    step; [|reflexivity].
  destruct (k >? 0); reflexivity.
Qed.

Lemma delete_name_returns (n : string) (w : world) :
  file w <> Unopenable -> fst (delete_name n w) = inl tt.
Proof.
  intros Hf. expose w.
  destruct f as [| |[t|]]; [contradiction| | |]; step; try reflexivity.
  destruct (Z.of_nat (length (rows t) - length (delete_rows n (rows t))) >? 0);
    reflexivity.
Qed.

Lemma print_all_names_returns (w : world) :
  file w <> Unopenable -> fst (print_all_names w) = inl tt.
Proof.
  intros Hne. destruct (file w) as [| |[t|]] eqn:Hf; [contradiction| | |].
  - expose w. reflexivity.
  - now rewrite (print_all_names_table w t Hf).
  - expose w. reflexivity.
Qed.

(** Closes a goal on the status of [m w1] once [H] says that [m w1]
    returns. *)
Ltac returned H :=
  match type of H with
  | fst ?run = inl tt =>
      let r := fresh "r" in
      let w2 := fresh "w" in
      destruct run as [r w2]; cbn [fst] in H; subst r; reflexivity
  end.

(** The exit status of every run from parsed arguments: 0, or 1 for a
    file that cannot be opened, or 1 for [-init] at the end of the
    input. *)
Lemma exit_status_cases (a : args.t) (w : world) :
  fst (run a w) = 0
  \/ (fst (run a w) = 1 /\ file w = Unopenable)
  \/ (fst (run a w) = 1 /\ args.initialize a = true /\ stdin w = []).
Proof.
  unfold run, main.
  destruct (args.initialize a) eqn:Hinit.
  { (* -init *)
    destruct (stdin w) as [|s rest] eqn:Hin.
    - right. right. expose w. now split.
    - expose w. step. destruct (lower s =? "y")%string; step; [|now left].
      destruct f as [| |[t|]]; step; [right|..]; auto. }
  unfold bind at 1. cbn [ret].
  destruct (action_specified a) eqn:Hact; [|now left].
  unfold bind at 1. cbn [negb ret].
  destruct (args.test_error a) eqn:Htest.
  { (* fault injection *)
    cbn [negb]. unfold bind at 1. cbn [ret]. expose w.
    destruct f as [| |[t|]]; step; [right|..]; auto.
    destruct (rowid_full t); [now left|].
    destruct (has_name TestErrorName (rows t)); now left. }
  cbn [negb]. unfold bind at 1.
  destruct (file w) as [| |d] eqn:Hf.
  { right. left. expose w. now split. }
  (* the file opens: the table is made sure of, then one action runs *)
  all: assert (Hne : file w <> Unopenable) by (rewrite Hf; discriminate).
  all: destruct (initialize_db_returns w Hne) as [Hr Hfile].
  all: destruct (initialize_db w) as [r w1]; cbn [fst snd] in *; subst r.
  all: left.
  all: destruct (truthy_str (args.input a));
    [destruct (args.input a) as [n|]; [|reflexivity];
     unfold add_until_stored;
     pose proof (add_loop_returns (S (length (stdin w1))) n w1 Hfile) as H;
     returned H|].
  all: destruct (truthy_pair (args.update a));
    [destruct (args.update a) as [[o n]|]; [|reflexivity];
     pose proof (update_name_returns o n w1 Hfile) as H; returned H|].
  all: destruct (truthy_str (args.delete a));
    [destruct (args.delete a) as [n|]; [|reflexivity];
     pose proof (delete_name_returns n w1 Hfile) as H; returned H|].
  all: destruct (args.output a); [|reflexivity].
  all: pose proof (print_all_names_returns w1 Hfile) as H; returned H.
Qed.

(** * Further properties of the repository functions *)

(** ** Facts on DELETE and UPDATE *)

Lemma delete_rows_absent (n : string) (rs : list row) :
  ~ In n (map name rs) -> delete_rows n rs = rs.
Proof.
  unfold delete_rows. induction rs as [|r rs IH]; cbn [filter map In];
    intros H; [reflexivity|].
  destruct (String.eqb_spec (name r) n) as [E|E]; cbn [negb].
  - exfalso. apply H. now left.
  - f_equal. apply IH. intros Hin. apply H. now right.
Qed.

Lemma delete_rows_names (n m : string) (rs : list row) :
  In m (map name (delete_rows n rs)) <-> In m (map name rs) /\ m <> n.
Proof.
  unfold delete_rows. rewrite !in_map_iff. split.
  - intros [r [E Hr]]. apply filter_In in Hr as [Hr Hne]. split.
    + now exists r.
    + subst m. intros E. rewrite E, String.eqb_refl in Hne. discriminate Hne.
  - intros [[r [E Hr]] Hne]. exists r. split; [assumption|].
    apply filter_In. split; [assumption|]. subst m.
    now destruct (String.eqb_spec (name r) n).
Qed.

Lemma delete_rows_shorter (n : string) (rs : list row) :
  (length (delete_rows n rs) <= length rs)%nat.
Proof. apply filter_length_le. Qed.

Lemma delete_rows_strictly_shorter (n : string) (rs : list row) :
  has_name n rs = true -> (length (delete_rows n rs) < length rs)%nat.
Proof.
  unfold has_name, delete_rows.
  induction rs as [|r rs IH]; cbn [existsb filter length]; [discriminate|].
  destruct (name r =? n)%string; cbn [orb negb length].
  - intros _. pose proof (delete_rows_shorter n rs) as H.
    unfold delete_rows in H. lia.
  - intros H. apply IH in H. lia.
Qed.

(** [rowcount] of the DELETE is positive exactly when the name was
    stored. *)
Lemma delete_rowcount (n : string) (rs : list row) :
  (Z.of_nat (length rs - length (delete_rows n rs)) >? 0) = has_name n rs.
Proof.
  destruct (has_name n rs) eqn:Hn.
  - apply delete_rows_strictly_shorter in Hn. apply Z.gtb_lt. lia.
  - apply has_name_not_In in Hn. rewrite (delete_rows_absent n rs Hn).
    rewrite Nat.sub_diag. reflexivity.
Qed.

Lemma delete_name_table (n : string) (w : world) (t : names_table) :
  file w = Database (Some t) ->
  delete_name n w =
  (inl tt,
   let t' := mkTable (delete_rows n (rows t)) (seq t) in
   mkWorld (Database (Some t')) (Some (closed_conn true (Some t'))) (stdin w)
     (stdout w ++ [if has_name n (rows t) then MsgDeleted n else MsgNotFound n])
     (calls w ++ [Connect; Execute (Delete n); Commit; Close])).
Proof.
  intros Hf. expose w. step. rewrite delete_rowcount.
  destruct (has_name n (rows t)); tidy.
Qed.

Lemma update_rows_no_match (new old : string) (todo done : list row) :
  ~ In old (map name todo) ->
  update_rows new old done todo = Some (done ++ todo, 0).
Proof.
  revert done. induction todo as [|r rest IH]; intros done H;
    cbn [update_rows].
  - now rewrite app_nil_r.
  - destruct (String.eqb_spec (name r) old) as [E|E].
    + exfalso. apply H. now left.
    + rewrite IH, <- app_assoc; [reflexivity|].
      intros Hin. apply H. now right.
Qed.

Lemma rename_rows_no_match (new old : string) (rs : list row) :
  ~ In old (map name rs) -> rename_rows new old rs = rs.
Proof.
  unfold rename_rows. induction rs as [|r rs IH]; cbn [map In]; intros H;
    [reflexivity|].
  destruct (String.eqb_spec (name r) old) as [E|E].
  - exfalso. apply H. now left.
  - f_equal. apply IH. intros Hin. apply H. now right.
Qed.

(** With distinct names and a free new name, the UPDATE goes through,
    changes the one matching row and counts it. *)
Lemma update_rows_renames (new old : string) (todo done : list row) :
  NoDup (map name (done ++ todo)) ->
  ~ In new (map name (done ++ todo)) ->
  In old (map name todo) ->
  update_rows new old done todo = Some (done ++ rename_rows new old todo, 1).
Proof.
  revert done. induction todo as [|r rest IH]; intros done Hnd Hnew Hold;
    [destruct Hold|].
  cbn [update_rows]. unfold rename_rows. cbn [map]. fold (rename_rows new old rest).
  destruct (String.eqb_spec (name r) old) as [E|E].
  - assert (Hn : has_name new (done ++ rest) = false).
    { apply has_name_not_In. intros Hin. apply Hnew.
      rewrite map_app, in_app_iff in *. cbn [map In]. tauto. }
    rewrite Hn.
    assert (Hrest : ~ In old (map name rest)).
    { rewrite map_app in Hnd. apply NoDup_remove_2 in Hnd.
      intros Hin. apply Hnd. rewrite in_app_iff. right. now rewrite E. }
    rewrite (update_rows_no_match new old rest _ Hrest).
    rewrite (rename_rows_no_match new old rest Hrest), <- app_assoc.
    reflexivity.
  - rewrite IH.
    + now rewrite <- app_assoc.
    + now rewrite <- app_assoc.
    + now rewrite <- app_assoc.
    + destruct Hold as [Hr|Hin]; [contradiction|assumption].
Qed.

(** A new name that another row already carries stops the UPDATE. *)
Lemma update_rows_collides (new old : string) (todo done : list row) :
  old <> new ->
  In old (map name todo) ->
  has_name new (done ++ todo) = true ->
  update_rows new old done todo = None.
Proof.
  intros Hne. revert done. induction todo as [|r rest IH]; intros done Hold Hnew;
    [destruct Hold|].
  cbn [update_rows].
  destruct (String.eqb_spec (name r) old) as [E|E].
  - assert (Hn : has_name new (done ++ rest) = true).
    { apply has_name_In. apply has_name_In in Hnew.
      rewrite map_app, in_app_iff in *. cbn [map In] in Hnew.
      destruct Hnew as [H|[H|H]]; [now left| |now right].
      exfalso. apply Hne. now rewrite <- E, H. }
    now rewrite Hn.
  - apply IH.
    + destruct Hold as [Hr|Hin]; [contradiction|assumption].
    + now rewrite <- app_assoc.
Qed.

Lemma filter_name_present (n : string) (rs : list row) :
  In n (map name rs) -> filter (fun r => (name r =? n)%string) rs <> [].
Proof.
  intros Hin E. apply in_map_iff in Hin as [r [Hr Hin]].
  assert (H : In r (filter (fun r => (name r =? n)%string) rs)).
  { apply filter_In. split; [assumption|]. subst n. apply String.eqb_refl. }
  rewrite E in H. destruct H.
Qed.

Lemma update_name_renamed (old_name new_name : string) (w : world)
      (t : names_table) :
  file w = Database (Some t) ->
  old_name <> new_name ->
  NoDup (names_of t) ->
  In old_name (names_of t) ->
  ~ In new_name (names_of t) ->
  update_name old_name new_name w =
  (inl tt,
   let t' := mkTable (rename_rows new_name old_name (rows t)) (seq t) in
   mkWorld (Database (Some t')) (Some (closed_conn true (Some t'))) (stdin w)
     (stdout w ++ [MsgRenamed old_name new_name])
     (calls w ++ [Connect; Execute (SelectId old_name);
                  Execute (Update new_name old_name); Commit; Close])).
Proof.
  intros Hf Hne Hnd Hold Hnew. expose w. step.
  destruct (String.eqb_spec old_name new_name) as [E|_]; [contradiction|].
  step.
  destruct (filter (fun r => (name r =? old_name)%string) (rows t))
    as [|r0 rs0] eqn:Hfil;
    [exfalso; exact (filter_name_present old_name (rows t) Hold Hfil)|].
  cbn [map]. step.
  rewrite (update_rows_renames new_name old_name (rows t) [] Hnd Hnew Hold).
  cbn [app]. step. change (1 >? 0) with true. tidy.
Qed.

Lemma update_name_collision (old_name new_name : string) (w : world)
      (t : names_table) :
  file w = Database (Some t) ->
  old_name <> new_name ->
  In old_name (names_of t) ->
  In new_name (names_of t) ->
  update_name old_name new_name w =
  (inl tt,
   mkWorld (file w) (Some (closed_conn true (Some t))) (stdin w)
     (stdout w ++ [MsgRolledBack (SqliteError IntegrityError);
                   MsgAlreadyExists new_name])
     (calls w ++ [Connect; Execute (SelectId old_name);
                  Execute (Update new_name old_name); Rollback; Close])).
Proof.
  intros Hf Hne Hold Hnew. expose w. step.
  destruct (String.eqb_spec old_name new_name) as [E|_]; [contradiction|].
  step.
  destruct (filter (fun r => (name r =? old_name)%string) (rows t))
    as [|r0 rs0] eqn:Hfil;
    [exfalso; exact (filter_name_present old_name (rows t) Hold Hfil)|].
  cbn [map]. step.
  rewrite (update_rows_collides new_name old_name (rows t) [] Hne Hold)
    by now apply has_name_In.
  tidy.
Qed.

(** ** Deleting *)

(** X1. Deleting a stored name: the DELETE counts at least one row, the
    success line is written, the scope commits, and the file holds the
    old rows without those named [n] - [n] is gone, every other name is
    stored exactly when it was before - with the AUTOINCREMENT counter
    as it was. *)
Theorem delete_stored_name_removes_it :
  forall (w : world) (t : names_table) (n : string),
    file w = Database (Some t) ->
    In n (names_of t) ->
    let (r, w') := delete_name n w in
    r = inl tt
    /\ stdout w' = stdout w ++ [MsgDeleted n]
    /\ calls w' = calls w ++ [Connect; Execute (Delete n); Commit; Close]
    /\ file w' = Database (Some (mkTable (delete_rows n (rows t)) (seq t)))
    /\ ~ In n (stored_names (file w'))
    /\ (forall m : string,
           m <> n -> (In m (stored_names (file w')) <-> In m (names_of t))).
Proof.
  intros w t n Hf Hin. rewrite (delete_name_table n w t Hf). cbv zeta.
  cbn [file stdout calls stored_names names_of rows].
  rewrite (proj2 (has_name_In n (rows t)) Hin).
  do 4 (split; [reflexivity|]). split.
  - intros Hn. apply delete_rows_names in Hn. now destruct Hn.
  - intros m Hm. split; intros Hin'.
    + apply delete_rows_names in Hin'. now destruct Hin'.
    + apply delete_rows_names. now split.
Qed.

Lemma delete_stored_name_removes_it_witness :
  let (r, w') :=
    delete_name "Bob"
      (start (Database (Some (mkTable [mkRow 1 "Alice"; mkRow 2 "Bob"] 2))) [])
  in
  r = inl tt
  /\ stdout w' = [MsgDeleted "Bob"]
  /\ calls w' = [Connect; Execute (Delete "Bob"); Commit; Close]
  /\ file w' =
     Database (Some (mkTable
                       (delete_rows "Bob" [mkRow 1 "Alice"; mkRow 2 "Bob"]) 2))
  /\ ~ In "Bob" (stored_names (file w'))
  /\ (forall m : string,
         m <> "Bob" ->
         (In m (stored_names (file w')) <->
          In m (names_of (mkTable [mkRow 1 "Alice"; mkRow 2 "Bob"] 2)))).
Proof.
  apply (delete_stored_name_removes_it
           (start (Database (Some (mkTable [mkRow 1 "Alice"; mkRow 2 "Bob"] 2))) [])
           (mkTable [mkRow 1 "Alice"; mkRow 2 "Bob"] 2) "Bob").
  - reflexivity.
  - cbn. right. now left.
Defined.

(** X2. Deleting a name that is not stored is no error: the DELETE
    runs and counts no row, "not found" is written, the scope commits
    and the file is exactly what it was. *)
Theorem delete_absent_name_reports_not_found :
  forall (w : world) (t : names_table) (n : string),
    file w = Database (Some t) ->
    ~ In n (names_of t) ->
    let (r, w') := delete_name n w in
    r = inl tt
    /\ stdout w' = stdout w ++ [MsgNotFound n]
    /\ calls w' = calls w ++ [Connect; Execute (Delete n); Commit; Close]
    /\ file w' = file w.
Proof.
  intros w t n Hf Hin. rewrite (delete_name_table n w t Hf). cbv zeta.
  cbn [file stdout calls].
  rewrite (proj2 (has_name_not_In n (rows t)) Hin).
  rewrite (delete_rows_absent n (rows t) Hin), Hf.
  repeat split. now destruct t.
Qed.

Lemma delete_absent_name_reports_not_found_witness :
  let (r, w') :=
    delete_name "Carol"
      (start (Database (Some (mkTable [mkRow 1 "Alice"; mkRow 2 "Bob"] 2))) [])
  in
  r = inl tt
  /\ stdout w' = [MsgNotFound "Carol"]
  /\ calls w' = [Connect; Execute (Delete "Carol"); Commit; Close]
  /\ file w' = Database (Some (mkTable [mkRow 1 "Alice"; mkRow 2 "Bob"] 2)).
Proof.
  apply (delete_absent_name_reports_not_found
           (start (Database (Some (mkTable [mkRow 1 "Alice"; mkRow 2 "Bob"] 2))) [])
           (mkTable [mkRow 1 "Alice"; mkRow 2 "Bob"] 2) "Carol").
  - reflexivity.
  - cbn. intros [E|[E|[]]]; discriminate E.
Defined.

(** ** Renaming a stored name *)

Lemma rename_rows_names (new old : string) (rs : list row) :
  map name (rename_rows new old rs) =
  map (fun x => if (x =? old)%string then new else x) (map name rs).
Proof.
  unfold rename_rows. rewrite !map_map. apply map_ext. intros r.
  now destruct (name r =? old)%string.
Qed.

Lemma rename_rows_ids (new old : string) (rs : list row) :
  map id (rename_rows new old rs) = map id rs.
Proof.
  unfold rename_rows. rewrite map_map. apply map_ext. intros r.
  now destruct (name r =? old)%string.
Qed.

(** X3. Renaming a stored name to a name that is free, in a store with
    unique names: the lookup finds [old], the UPDATE changes one row,
    the success line is written and the scope commits.  In the file the
    record keeps its place and its id and carries [new]; [old] is no
    longer stored and all other names are untouched. *)
Theorem rename_stored_name_to_free_name :
  forall (w : world) (t : names_table) (old_name new_name : string),
    file w = Database (Some t) ->
    old_name <> new_name ->
    NoDup (names_of t) ->
    In old_name (names_of t) ->
    ~ In new_name (names_of t) ->
    let (r, w') := update_name old_name new_name w in
    r = inl tt
    /\ stdout w' = stdout w ++ [MsgRenamed old_name new_name]
    /\ calls w' = calls w ++ [Connect; Execute (SelectId old_name);
                              Execute (Update new_name old_name); Commit; Close]
    /\ stored_names (file w') =
       map (fun x => if (x =? old_name)%string then new_name else x)
           (names_of t)
    /\ (exists t' : names_table,
           file w' = Database (Some t')
           /\ map id (rows t') = map id (rows t)
           /\ seq t' = seq t)
    /\ In new_name (stored_names (file w'))
    /\ ~ In old_name (stored_names (file w')).
Proof.
  intros w t old_name new_name Hf Hne Hnd Hold Hnew.
  rewrite (update_name_renamed old_name new_name w t Hf Hne Hnd Hold Hnew).
  cbv zeta. cbn [file stdout calls stored_names].
  assert (Hnames :
            names_of (mkTable (rename_rows new_name old_name (rows t)) (seq t))
            = map (fun x => if (x =? old_name)%string then new_name else x)
                  (names_of t))
    by (unfold names_of; cbn [rows]; apply rename_rows_names).
  rewrite Hnames.
  do 4 (split; [reflexivity|]). split; [|split].
  - eexists. split; [reflexivity|]. cbn [rows seq].
    split; [apply rename_rows_ids|reflexivity].
  - apply in_map_iff. exists old_name. now rewrite String.eqb_refl.
  - intros H. apply in_map_iff in H as [x [E _]].
    destruct (String.eqb_spec x old_name) as [Ex|Ex]; congruence.
Qed.

Lemma rename_stored_name_to_free_name_witness :
  let (r, w') :=
    update_name "Alice" "Carol"
      (start (Database (Some (mkTable [mkRow 1 "Alice"; mkRow 2 "Bob"] 2))) [])
  in
  r = inl tt
  /\ stdout w' = [MsgRenamed "Alice" "Carol"]
  /\ calls w' = [Connect; Execute (SelectId "Alice");
                 Execute (Update "Carol" "Alice"); Commit; Close]
  /\ stored_names (file w') =
     map (fun x => if (x =? "Alice")%string then "Carol" else x)
         (names_of (mkTable [mkRow 1 "Alice"; mkRow 2 "Bob"] 2))
  /\ (exists t' : names_table,
         file w' = Database (Some t')
         /\ map id (rows t') = map id [mkRow 1 "Alice"; mkRow 2 "Bob"]
         /\ seq t' = 2)
  /\ In "Carol" (stored_names (file w'))
  /\ ~ In "Alice" (stored_names (file w')).
Proof.
  apply (rename_stored_name_to_free_name
           (start (Database (Some (mkTable [mkRow 1 "Alice"; mkRow 2 "Bob"] 2))) [])
           (mkTable [mkRow 1 "Alice"; mkRow 2 "Bob"] 2) "Alice" "Carol").
  - reflexivity.
  - discriminate.
  - cbn. repeat constructor; cbn; intuition discriminate.
  - cbn. now left.
  - cbn. intros [E|[E|[]]]; discriminate E.
Defined.

(** X4. Renaming a stored name to another stored name: the UPDATE
    fails on the unique index, the scope rolls back, the line "already
    exists" names the new name, no exception leaves [update_name] and
    the file is unchanged. *)
Theorem rename_to_taken_name_is_rejected :
  forall (w : world) (t : names_table) (old_name new_name : string),
    file w = Database (Some t) ->
    old_name <> new_name ->
    In old_name (names_of t) ->
    In new_name (names_of t) ->
    let (r, w') := update_name old_name new_name w in
    r = inl tt
    /\ stdout w' = stdout w ++ [MsgRolledBack (SqliteError IntegrityError);
                                MsgAlreadyExists new_name]
    /\ calls w' = calls w ++ [Connect; Execute (SelectId old_name);
                              Execute (Update new_name old_name);
                              Rollback; Close]
    /\ file w' = file w.
Proof.
  intros w t old_name new_name Hf Hne Hold Hnew.
  rewrite (update_name_collision old_name new_name w t Hf Hne Hold Hnew).
  cbn [file stdout calls]. repeat split.
Qed.

Lemma rename_to_taken_name_is_rejected_witness :
  let (r, w') :=
    update_name "Alice" "Bob"
      (start (Database (Some (mkTable [mkRow 1 "Alice"; mkRow 2 "Bob"] 2))) [])
  in
  r = inl tt
  /\ stdout w' = [MsgRolledBack (SqliteError IntegrityError);
                  MsgAlreadyExists "Bob"]
  /\ calls w' = [Connect; Execute (SelectId "Alice");
                 Execute (Update "Bob" "Alice"); Rollback; Close]
  /\ file w' = Database (Some (mkTable [mkRow 1 "Alice"; mkRow 2 "Bob"] 2)).
Proof.
  apply (rename_to_taken_name_is_rejected
           (start (Database (Some (mkTable [mkRow 1 "Alice"; mkRow 2 "Bob"] 2))) [])
           (mkTable [mkRow 1 "Alice"; mkRow 2 "Bob"] 2) "Alice" "Bob").
  - reflexivity.
  - discriminate.
  - cbn. now left.
  - cbn. right. now left.
Defined.

(** ** Creating the table *)

(** X5. [initialize_db] on any process state: the stored names are
    what they were (rows are never altered), a database has the table
    afterwards while a file that is no database or cannot be opened is
    left alone, and running it a second time changes nothing in the
    file any more. *)
Theorem initialize_db_creates_once_and_keeps_rows :
  forall w : world,
    let w1 := snd (initialize_db w) in
    stored_names (file w1) = stored_names (file w)
    /\ match file w with
       | Database _ => exists t : names_table, file w1 = Database (Some t)
       | _ => file w1 = file w
       end
    /\ file (snd (initialize_db w1)) = file w1.
Proof.
  intros w. expose w. destruct f as [| |[t|]]; step.
  - repeat split.
  - repeat split.
  - split; [reflexivity|]. split; [now exists t|reflexivity].
  - split; [reflexivity|]. split; [now exists empty_table|reflexivity].
Qed.

(** ** Adding *)

(** X6. Adding a name that is not stored, to a database that has the
    table and a rowid left to hand out: the INSERT goes through, the
    success line is written, the scope commits, [True] is returned and
    the input is not read.  The file holds the old rows followed by one
    new row for the name, whose id is above every id of the table and
    above the AUTOINCREMENT counter, which moves up to it, and is a
    valid rowid. *)
Theorem add_fresh_name_appends_record :
  forall (w : world) (t : names_table) (n : string),
    file w = Database (Some t) ->
    rowid_full t = false ->
    ~ In n (names_of t) ->
    let (r, w') := add_name n w in
    r = inl true
    /\ stdout w' = stdout w ++ [MsgSaved n]
    /\ calls w' = calls w ++ [Connect; Execute (Insert n); Commit; Close]
    /\ stdin w' = stdin w
    /\ stored_names (file w') = names_of t ++ [n]
    /\ (exists new_id : Z,
           file w' = Database (Some (mkTable (rows t ++ [mkRow new_id n]) new_id))
           /\ seq t < new_id
           /\ new_id <= MAX_ROWID
           /\ Forall (fun r => id r < new_id) (rows t)).
Proof.
  intros w t n Hf Hroom Hin.
  rewrite (add_name_fresh n w t Hf Hroom) by now apply has_name_not_In.
  cbn [file stdout calls stdin stored_names].
  do 4 (split; [reflexivity|]). split; [apply names_of_insert_row|].
  exists (next_id t). split; [reflexivity|].
  split; [apply next_id_above_seq|].
  split; [now apply rowid_full_false|].
  apply Forall_forall. intros r Hr. now apply next_id_above_ids.
Qed.

Lemma add_fresh_name_appends_record_witness :
  let (r, w') :=
    add_name "Carol"
      (start (Database (Some (mkTable [mkRow 1 "Alice"; mkRow 3 "Bob"] 5))) ["x"])
  in
  r = inl true
  /\ stdout w' = [MsgSaved "Carol"]
  /\ calls w' = [Connect; Execute (Insert "Carol"); Commit; Close]
  /\ stdin w' = ["x"]
  /\ stored_names (file w') =
     names_of (mkTable [mkRow 1 "Alice"; mkRow 3 "Bob"] 5) ++ ["Carol"]
  /\ (exists new_id : Z,
         file w' =
         Database (Some (mkTable ([mkRow 1 "Alice"; mkRow 3 "Bob"]
                                    ++ [mkRow new_id "Carol"]) new_id))
         /\ 5 < new_id
         /\ new_id <= MAX_ROWID
         /\ Forall (fun r => id r < new_id) [mkRow 1 "Alice"; mkRow 3 "Bob"]).
Proof.
  apply (add_fresh_name_appends_record
           (start (Database (Some (mkTable [mkRow 1 "Alice"; mkRow 3 "Bob"] 5)))
              ["x"])
           (mkTable [mkRow 1 "Alice"; mkRow 3 "Bob"] 5) "Carol").
  - reflexivity.
  - reflexivity.
  - cbn. intros [E|[E|[]]]; discriminate E.
Defined.

(** X7. Whenever [add_name] does not return [True] - a duplicate, a
    missing table, a file that is no database or that cannot be opened
    - the file is exactly what it was: [add_name] changes the store
    only together with the answer [True]. *)
Theorem add_name_failure_keeps_file :
  forall (n : string) (w : world),
    fst (add_name n w) <> inl true ->
    file (snd (add_name n w)) = file w.
Proof.
  intros n w. destruct (file w) as [| |[t|]] eqn:Hf.
  - now rewrite add_name_unopenable.
  - now rewrite add_name_not_a_database.
  - destruct (rowid_full t) eqn:Hroom;
      [now rewrite (add_name_full n w t)|].
    destruct (has_name n (rows t)) eqn:Hn.
    + now rewrite (add_name_duplicate n w t).
    + rewrite (add_name_fresh n w t) by assumption. cbn [fst].
      intros H. now contradiction H.
  - now rewrite add_name_no_table.
Qed.

Lemma add_name_failure_keeps_file_witness :
  file (snd (add_name "Alice" (start (Database None) []))) = Database None.
Proof.
  apply (add_name_failure_keeps_file "Alice" (start (Database None) [])).
  cbn. discriminate.
Defined.

(** ** Leaving a scope without an error *)

(** X8. When the body of a scope returns and its connection is open and
    usable, [__exit__] calls [commit] and [close], writes nothing and
    answers [False]; [with db_manager] hands the value of the body on.
    The file then holds exactly what the connection saw, and the
    connection is closed with no transaction open. *)
Theorem normal_exit_commits :
  forall (A : Type) (body : M A) (a : A) (w w1 w2 : world) (c c2 : connection),
    __enter__ w = (inl c, w1) ->
    body w1 = (inl a, w2) ->
    conn w2 = Some c2 ->
    closed c2 = false ->
    usable c2 = true ->
    __exit__ None w2 =
      (inl false,
       mkWorld (Database (current c2))
         (Some (closed_conn true (current c2))) (stdin w2) (stdout w2)
         (calls w2 ++ [Commit; Close]))
    /\ with_db_manager body w =
         (inl (Some a),
          mkWorld (Database (current c2))
            (Some (closed_conn true (current c2))) (stdin w2) (stdout w2)
            (calls w2 ++ [Commit; Close])).
Proof.
  intros A body a w w1 w2 c c2 He Hb Hc Hopen Hus.
  assert (Hexit : __exit__ None w2 =
                  (inl false,
                   mkWorld (Database (current c2))
                     (Some (closed_conn true (current c2))) (stdin w2) (stdout w2)
                     (calls w2 ++ [Commit; Close]))).
  { destruct w2 as [f2 k2 i2 o2 l2]. cbn [conn] in Hc. subst k2.
    destruct c2 as [u d tx cl]. cbn [closed usable] in *. subst u cl. tidy. }
  split; [exact Hexit|].
  unfold with_db_manager. now rewrite He, Hb, Hexit.
Qed.

Lemma normal_exit_commits_witness :
  with_db_manager (execute (Insert "Alice") ;; ret 7%nat)
    (start (Database (Some empty_table)) [])
  = (inl (Some 7%nat),
     mkWorld (Database (Some (insert_row "Alice" empty_table)))
       (Some (closed_conn true (Some (insert_row "Alice" empty_table))))
       [] [] ([Connect; Execute (Insert "Alice")] ++ [Commit; Close])).
Proof.
  refine (proj2 (normal_exit_commits nat _ 7%nat
            (start (Database (Some empty_table)) [])
            (mkWorld (Database (Some empty_table))
               (Some (mkConn true (Some empty_table) false false))
               [] [] [Connect])
            (mkWorld (Database (Some empty_table))
               (Some (mkConn true (Some (insert_row "Alice" empty_table))
                        true false))
               [] [] [Connect; Execute (Insert "Alice")])
            (mkConn true (Some empty_table) false false)
            (mkConn true (Some (insert_row "Alice" empty_table)) true false)
            _ _ _ _ _)); reflexivity.
Defined.

(** ** The dispatcher *)

(** X9. A store that cannot be opened ends every command that has an
    action (and no [-init]) with exit status 1 at the first scope: one
    [connect] is attempted and nothing else is called, the connection
    error is the last line written, the input is not read and the file
    is untouched. *)
Theorem unopenable_store_exits_1 :
  forall (a : args.t) (w : world),
    file w = Unopenable ->
    args.initialize a = false ->
    action_specified a = true ->
    let (code, w') := run a w in
    code = 1
    /\ calls w' = calls w ++ [Connect]
    /\ stdout w' =
       stdout w ++ (if args.test_error a then [MsgTestStart] else [])
                ++ [MsgConnectError (SqliteError OperationalError)]
    /\ stdin w' = stdin w
    /\ file w' = file w.
Proof.
  intros a w Hf Hi Ha. unfold run, main. rewrite Hi, Ha. expose w.
  destruct (args.test_error a); step; rewrite <- ?app_assoc; repeat split.
Qed.

Lemma unopenable_store_exits_1_witness :
  let (code, w') :=
    run (args.mk None None (Some "Alice") false false false)
        (start Unopenable ["y"])
  in
  code = 1
  /\ calls w' = [Connect]
  /\ stdout w' = [MsgConnectError (SqliteError OperationalError)]
  /\ stdin w' = ["y"]
  /\ file w' = Unopenable.
Proof.
  apply (unopenable_store_exits_1
           (args.mk None None (Some "Alice") false false false)
           (start Unopenable ["y"])); reflexivity.
Defined.

(** X10. Every run from parsed arguments on a file that can be opened
    ends with exit status 0, provided that the names of the command
    line and the lines of the input are text (well-formed UTF-8, so
    that sqlite3 can bind them) and that [-init] finds a line to read
    on standard input: no storage error, duplicate, missing name or
    cancelled prompt changes the status. *)
Theorem openable_store_exits_0 :
  forall (a : args.t) (w : world),
    file w <> Unopenable ->
    (args.initialize a = true -> stdin w <> []) ->
    text_run a w ->
    fst (run a w) = 0.
Proof.
  intros a w Hf Hin _.
  destruct (exit_status_cases a w) as [H|[[_ H]|[_ [Hi Hs]]]].
  - exact H.
  - contradiction.
  - exfalso. now apply Hin.
Qed.

Lemma openable_store_exits_0_witness :
  fst (run (args.mk (Some "Alice") None None false false false)
           (start NotADatabase ["Bob"; ""])) = 0.
Proof.
  apply (openable_store_exits_0
           (args.mk (Some "Alice") None None false false false)
           (start NotADatabase ["Bob"; ""])).
  - discriminate.
  - discriminate.
  - repeat split. repeat constructor.
Defined.

(** X11. An empty NAME counts as no action: with [-i ""] or [-d ""]
    (and no [-u], [-o] or [-init]) the truth test of line 193 fails,
    the help text is written, the status is 0 and nothing is called in
    sqlite3 - the empty name is neither added nor looked for. *)
Theorem empty_name_prints_help :
  forall (a : args.t) (w : world),
    args.initialize a = false ->
    args.update a = None ->
    args.output a = false ->
    args.input a = None \/ args.input a = Some "" ->
    args.delete a = None \/ args.delete a = Some "" ->
    run a w =
    (0, mkWorld (file w) (conn w) (stdin w) (stdout w ++ [MsgHelp]) (calls w)).
Proof.
  intros a w Hi Hu Ho Hin Hd. apply main_without_action; [assumption|].
  unfold action_specified. rewrite Hu, Ho.
  destruct Hin as [-> | ->]; destruct Hd as [-> | ->]; reflexivity.
Qed.

Lemma empty_name_prints_help_witness :
  run (args.mk (Some "") None None false false false)
      (start (Database (Some empty_table)) [])
  = (0, mkWorld (Database (Some empty_table)) None [] [MsgHelp] []).
Proof.
  apply (empty_name_prints_help
           (args.mk (Some "") None None false false false)
           (start (Database (Some empty_table)) [])); try reflexivity.
  - now right.
  - now left.
Defined.

(** ** The retry loop, turn by turn *)

(** X12. When the name of [-i] is already stored, the table has a
    rowid left to hand out and the next input line is a non-empty
    name, well-formed as text, that is not stored, the loop reports the
    duplicate, prompts once, reads that line and stores it: the file
    gains one record, for the replacement, and the loop ends. *)
Theorem retry_stores_replacement_name :
  forall (w : world) (t : names_table) (n s : string) (rest : list string),
    file w = Database (Some t) ->
    rowid_full t = false ->
    In n (names_of t) ->
    stdin w = s :: rest ->
    s <> "" ->
    utf8 s = true ->
    ~ In s (names_of t) ->
    add_until_stored n w =
    (inl tt,
     mkWorld (Database (Some (insert_row s t)))
       (Some (closed_conn true (Some (insert_row s t)))) rest
       (stdout w ++ [MsgRolledBack (SqliteError IntegrityError);
                     MsgAlreadyExists n; PromptOtherName n; MsgSaved s])
       (calls w ++ [Connect; Execute (Insert n); Rollback; Close;
                    Connect; Execute (Insert s); Commit; Close])).
Proof.
  intros w t n s rest Hf Hroom Hn Hin Hs _ Hfree.
  rewrite add_until_stored_turn.
  rewrite (add_name_duplicate n w t Hf Hroom) by now apply has_name_In.
  cbv zeta. cbn [stdin]. rewrite Hin.
  destruct (String.eqb_spec s "") as [E|_]; [contradiction|].
  rewrite add_until_stored_turn.
  rewrite (add_name_fresh s _ t) by (try reflexivity; try exact Hf;
                                      try exact Hroom;
                                      now apply has_name_not_In).
  unfold put_line, set_stdin. cbn [file conn stdin stdout calls].
  rewrite <- !app_assoc. reflexivity.
Qed.

Lemma retry_stores_replacement_name_witness :
  add_until_stored "Alice"
    (start (Database (Some (mkTable [mkRow 1 "Alice"] 1))) ["Bob"; "x"])
  = (inl tt,
     mkWorld (Database (Some (insert_row "Bob" (mkTable [mkRow 1 "Alice"] 1))))
       (Some (closed_conn true
                (Some (insert_row "Bob" (mkTable [mkRow 1 "Alice"] 1)))))
       ["x"]
       ([] ++ [MsgRolledBack (SqliteError IntegrityError);
               MsgAlreadyExists "Alice"; PromptOtherName "Alice";
               MsgSaved "Bob"])
       ([] ++ [Connect; Execute (Insert "Alice"); Rollback; Close;
               Connect; Execute (Insert "Bob"); Commit; Close])).
Proof.
  apply (retry_stores_replacement_name
           (start (Database (Some (mkTable [mkRow 1 "Alice"] 1))) ["Bob"; "x"])
           (mkTable [mkRow 1 "Alice"] 1) "Alice" "Bob" ["x"]).
  - reflexivity.
  - reflexivity.
  - cbn. now left.
  - reflexivity.
  - discriminate.
  - reflexivity.
  - cbn. intros [E|[]]. discriminate E.
Defined.

(** X13. When the name of [-i] is already stored and the answer to the
    prompt is an empty line or the end of the input, the add is given
    up: the loop returns after one prompt, with the line "cancelled"
    for the empty line and "input interrupted" for the end of input,
    and the file is unchanged.  (The failure reported before the prompt
    is the duplicate; at the rowid ceiling it is the refusal of sqlite,
    which comes before the unique index.) *)
Theorem retry_cancelled_keeps_file :
  forall (w : world) (t : names_table) (n : string),
    file w = Database (Some t) ->
    In n (names_of t) ->
    hd "" (stdin w) = "" ->
    let (r, w') := add_until_stored n w in
    r = inl tt
    /\ file w' = file w
    /\ stdin w' = tl (stdin w)
    /\ stdout w' =
       stdout w ++
       (if rowid_full t
        then [MsgRolledBack (SqliteError OperationalError);
              MsgDbError (SqliteError OperationalError)]
        else [MsgRolledBack (SqliteError IntegrityError);
              MsgAlreadyExists n])
       ++ [PromptOtherName n;
           match stdin w with
           | [] => MsgInputInterrupted
           | _ :: _ => MsgAddCancelled
           end]
    /\ calls w' = calls w ++ [Connect; Execute (Insert n); Rollback; Close].
Proof.
  intros w t n Hf Hn Hin.
  rewrite add_until_stored_turn.
  destruct (rowid_full t) eqn:Hroom.
  - rewrite (add_name_full n w t Hf Hroom).
    cbv zeta. cbn [stdin].
    destruct (stdin w) as [|s rest]; cbn [hd tl] in *.
    + unfold put_line. cbn [file conn stdin stdout calls].
      rewrite <- !app_assoc. repeat split.
    + subst s. cbn [String.eqb].
      unfold put_line, set_stdin. cbn [file conn stdin stdout calls].
      rewrite <- !app_assoc. repeat split.
  - rewrite (add_name_duplicate n w t Hf Hroom) by now apply has_name_In.
    cbv zeta. cbn [stdin].
    destruct (stdin w) as [|s rest]; cbn [hd tl] in *.
    + unfold put_line. cbn [file conn stdin stdout calls].
      rewrite <- !app_assoc. repeat split.
    + subst s. cbn [String.eqb].
      unfold put_line, set_stdin. cbn [file conn stdin stdout calls].
      rewrite <- !app_assoc. repeat split.
Qed.

Lemma retry_cancelled_keeps_file_witness :
  let (r, w') :=
    add_until_stored "Alice"
      (start (Database (Some (mkTable [mkRow 1 "Alice"] 1))) [""; "Bob"])
  in
  r = inl tt
  /\ file w' = Database (Some (mkTable [mkRow 1 "Alice"] 1))
  /\ stdin w' = ["Bob"]
  /\ stdout w' =
     [MsgRolledBack (SqliteError IntegrityError);
      MsgAlreadyExists "Alice"; PromptOtherName "Alice"; MsgAddCancelled]
  /\ calls w' = [Connect; Execute (Insert "Alice"); Rollback; Close].
Proof.
  apply (retry_cancelled_keeps_file
           (start (Database (Some (mkTable [mkRow 1 "Alice"] 1))) [""; "Bob"])
           (mkTable [mkRow 1 "Alice"] 1) "Alice").
  - reflexivity.
  - cbn. now left.
  - reflexivity.
Defined.

Lemma add_name_on_table (n : string) (w : world) (t : names_table) :
  file w = Database (Some t) ->
  (exists w1 : world,
      add_name n w = (inl false, w1)
      /\ file w1 = file w /\ stdin w1 = stdin w)
  \/ (~ In n (names_of t)
      /\ exists w1 : world,
          add_name n w = (inl true, w1)
          /\ file w1 = Database (Some (insert_row n t))
          /\ stdin w1 = stdin w).
Proof.
  intros Hf. destruct (rowid_full t) eqn:Hroom.
  { left. rewrite (add_name_full n w t Hf Hroom). eexists.
    split; [reflexivity|]. now split. }
  destruct (has_name n (rows t)) eqn:Hn.
  - left. rewrite (add_name_duplicate n w t Hf Hroom Hn). eexists.
    split; [reflexivity|]. now split.
  - right. split; [now apply has_name_not_In|].
    rewrite (add_name_fresh n w t Hf Hroom Hn). eexists.
    split; [reflexivity|]. now split.
Qed.

Lemma add_loop_effect (fuel : nat) (n : string) (w : world) (t : names_table) :
  file w = Database (Some t) ->
  fst (add_loop fuel n w) = inl tt
  /\ (file (snd (add_loop fuel n w)) = file w
      \/ exists m : string,
          (m = n \/ In m (stdin w))
          /\ ~ In m (names_of t)
          /\ file (snd (add_loop fuel n w)) = Database (Some (insert_row m t)))
  /\ exists used : list string, stdin w = used ++ stdin (snd (add_loop fuel n w)).
Proof.
  revert n w. induction fuel as [|fuel IH]; intros n w Hf.
  - cbn. split; [reflexivity|]. split; [now left|now exists []].
  - rewrite add_loop_turn.
    destruct (add_name_on_table n w t Hf)
      as [(w1 & Hrun & Hf1 & Hin1)|(Hfree & w1 & Hrun & Hf1 & Hin1)];
      rewrite Hrun.
    + cbv zeta. rewrite Hin1.
      destruct (stdin w) as [|s rest] eqn:Hin.
      * destruct w1. cbn in *. split; [reflexivity|].
        split; [now left|now exists []].
      * destruct (s =? "")%string.
        { destruct w1. cbn in *. split; [reflexivity|].
          split; [now left|now exists [s]]. }
        set (w2 := set_stdin rest _).
        assert (Hf2 : file w2 = Database (Some t))
          by (subst w2; destruct w1; cbn in *; congruence).
        assert (Hin2 : stdin w2 = rest) by (subst w2; now destruct w1).
        destruct (IH s w2 Hf2) as (Hr & Hfile & used & Hused).
        rewrite Hin2 in Hfile, Hused.
        split; [exact Hr|]. split.
        { destruct Hfile as [Hsame|(m & Hm & Hfree & Hins)].
          - left. now rewrite Hsame, Hf2.
          - right. exists m. split; [|now split].
            right. destruct Hm as [->|Hm]; [now left|now right]. }
        exists (s :: used). cbn [app]. f_equal. exact Hused.
    + cbn [fst snd]. split; [reflexivity|]. split.
      * right. exists n. split; [now left|]. now split.
      * exists []. now rewrite Hin1.
Qed.

(** X14. On a database that has the table, the retry loop of [-i]
    always returns, whatever text the command line and the input hold
    (names and lines that are well-formed UTF-8), and stores at most
    one name: the file is either unchanged or has gained exactly one
    record, for the name of the command line or for one of the input
    lines, a name that was not stored before.  The lines it leaves on
    standard input are a suffix of the lines it found. *)
Theorem retry_loop_stores_at_most_one_name :
  forall (w : world) (t : names_table) (n : string),
    file w = Database (Some t) ->
    utf8 n = true ->
    Forall (fun s => utf8 s = true) (stdin w) ->
    let (r, w') := add_until_stored n w in
    r = inl tt
    /\ (file w' = file w
        \/ exists m : string,
            (m = n \/ In m (stdin w))
            /\ ~ In m (names_of t)
            /\ file w' = Database (Some (insert_row m t)))
    /\ exists used : list string, stdin w = used ++ stdin w'.
Proof.
  intros w t n Hf _ _. unfold add_until_stored.
  pose proof (add_loop_effect (S (length (stdin w))) n w t Hf) as H.
  destruct (add_loop (S (length (stdin w))) n w) as [r w']. exact H.
Qed.

Lemma retry_loop_stores_at_most_one_name_witness :
  let (r, w') :=
    add_until_stored "Alice"
      (start (Database (Some (mkTable [mkRow 1 "Alice"; mkRow 2 "Bob"] 2)))
         ["Bob"; "Alice"; "Carol"; "Dave"])
  in
  r = inl tt
  /\ (file w' = Database (Some (mkTable [mkRow 1 "Alice"; mkRow 2 "Bob"] 2))
      \/ exists m : string,
          (m = "Alice" \/ In m ["Bob"; "Alice"; "Carol"; "Dave"])
          /\ ~ In m (names_of (mkTable [mkRow 1 "Alice"; mkRow 2 "Bob"] 2))
          /\ file w' =
             Database (Some (insert_row m
                               (mkTable [mkRow 1 "Alice"; mkRow 2 "Bob"] 2))))
  /\ exists used : list string,
      ["Bob"; "Alice"; "Carol"; "Dave"] = used ++ stdin w'.
Proof.
  apply (retry_loop_stores_at_most_one_name
           (start (Database (Some (mkTable [mkRow 1 "Alice"; mkRow 2 "Bob"] 2)))
              ["Bob"; "Alice"; "Carol"; "Dave"])
           (mkTable [mkRow 1 "Alice"; mkRow 2 "Bob"] 2) "Alice").
  - reflexivity.
  - reflexivity.
  - repeat constructor.
Defined.

(** ** Listing on every file *)

(** X15. [print_all_names] only reads: on every process state the file
    and the input are what they were.  What it writes depends on the
    file: the header and the listing for a table, the rollback line and
    a database error when the table is missing or the file is no
    database, and the connection error when the file cannot be
    opened. *)
Theorem print_all_names_only_reads :
  forall w : world,
    let w' := snd (print_all_names w) in
    file w' = file w
    /\ stdin w' = stdin w
    /\ stdout w' =
       stdout w ++
       match file w with
       | Database (Some t) => listing (names_of t)
       | Database None =>
           [MsgRolledBack (SqliteError OperationalError);
            MsgDbError (SqliteError OperationalError)]
       | NotADatabase =>
           [MsgRolledBack (SqliteError DatabaseError);
            MsgDbError (SqliteError DatabaseError)]
       | Unopenable => [MsgConnectError (SqliteError OperationalError)]
       end.
Proof.
  intros w. destruct (file w) as [| |[t|]] eqn:Hf.
  - expose w. tidy. repeat split.
  - expose w. tidy. repeat split.
  - rewrite (print_all_names_table w t Hf). cbn [snd file stdin stdout].
    now rewrite Hf.
  - expose w. tidy. repeat split.
Qed.

(** ** Round trips *)

Lemma delete_rows_last (n : string) (rs : list row) (k : Z) :
  ~ In n (map name rs) -> delete_rows n (rs ++ [mkRow k n]) = rs.
Proof.
  intros H. unfold delete_rows. rewrite filter_app. cbn [filter name].
  rewrite String.eqb_refl. cbn [negb]. rewrite app_nil_r.
  exact (delete_rows_absent n rs H).
Qed.

(** X16. On a table with a rowid left to hand out, adding a name that
    is not stored and deleting it again gives back the rows the table
    had, in their order and with their ids; only the AUTOINCREMENT
    counter has moved on, to the id the record had, so that id is not
    given out again. *)
Theorem add_then_delete_restores_rows :
  forall (w : world) (t : names_table) (n : string),
    file w = Database (Some t) ->
    rowid_full t = false ->
    ~ In n (names_of t) ->
    let w1 := snd (add_name n w) in
    let w2 := snd (delete_name n w1) in
    file w2 = Database (Some (mkTable (rows t) (next_id t)))
    /\ stored_names (file w2) = names_of t
    /\ seq t < next_id t
    /\ stdout w2 = stdout w ++ [MsgSaved n; MsgDeleted n].
Proof.
  intros w t n Hf Hroom Hin. cbv zeta.
  rewrite (add_name_fresh n w t Hf Hroom) by now apply has_name_not_In.
  cbn [snd]. set (w1 := mkWorld _ _ _ _ _).
  rewrite (delete_name_table n w1 (insert_row n t) eq_refl). cbv zeta.
  subst w1.
  cbn [snd file stdout stored_names].
  unfold insert_row at 1 2 3. cbn [rows seq].
  rewrite (delete_rows_last n (rows t) (next_id t) Hin).
  assert (Hhas : has_name n (rows (insert_row n t)) = true)
    by (apply has_name_In; apply In_insert_row).
  rewrite Hhas, <- app_assoc.
  repeat split. apply next_id_above_seq.
Qed.

Lemma add_then_delete_restores_rows_witness :
  let w := start (Database (Some (mkTable [mkRow 1 "Alice"] 1))) [] in
  let w1 := snd (add_name "Bob" w) in
  let w2 := snd (delete_name "Bob" w1) in
  file w2 = Database (Some (mkTable [mkRow 1 "Alice"]
                              (next_id (mkTable [mkRow 1 "Alice"] 1))))
  /\ stored_names (file w2) = names_of (mkTable [mkRow 1 "Alice"] 1)
  /\ 1 < next_id (mkTable [mkRow 1 "Alice"] 1)
  /\ stdout w2 = [] ++ [MsgSaved "Bob"; MsgDeleted "Bob"].
Proof.
  apply (add_then_delete_restores_rows
           (start (Database (Some (mkTable [mkRow 1 "Alice"] 1))) [])
           (mkTable [mkRow 1 "Alice"] 1) "Bob").
  - reflexivity.
  - reflexivity.
  - cbn. intros [E|[]]. discriminate E.
Defined.

Lemma rename_rows_back (a b : string) (rs : list row) :
  ~ In b (map name rs) -> rename_rows a b (rename_rows b a rs) = rs.
Proof.
  unfold rename_rows. induction rs as [|r rs IH]; cbn [map In]; intros H;
    [reflexivity|].
  rewrite IH by (intros Hin; apply H; now right). f_equal.
  destruct r as [k x]. cbn [name id] in *.
  destruct (String.eqb_spec x a) as [E|E]; cbn [name id].
  - rewrite String.eqb_refl. now subst.
  - destruct (String.eqb_spec x b) as [E'|_]; [|reflexivity].
    exfalso. apply H. now left.
Qed.

(** X17. Renaming a stored name to a free name and back, in a store
    with unique names, gives back the file exactly as it was: both
    renames succeed and every record has its old id and name. *)
Theorem rename_there_and_back :
  forall (w : world) (t : names_table) (a b : string),
    file w = Database (Some t) ->
    a <> b ->
    NoDup (names_of t) ->
    In a (names_of t) ->
    ~ In b (names_of t) ->
    let w1 := snd (update_name a b w) in
    let w2 := snd (update_name b a w1) in
    file w2 = file w
    /\ stdout w2 = stdout w ++ [MsgRenamed a b; MsgRenamed b a].
Proof.
  intros w t a b Hf Hne Hnd Ha Hb. cbv zeta.
  pose proof (update_name_unique a b w) as Huniq.
  rewrite (update_name_renamed a b w t Hf Hne Hnd Ha Hb) in *.
  cbv zeta in *. cbn [snd file] in *.
  set (t1 := mkTable (rename_rows b a (rows t)) (seq t)) in *.
  assert (Hn1 : names_of t1 =
                map (fun x => if (x =? a)%string then b else x) (names_of t))
    by (unfold names_of, t1; cbn [rows]; apply rename_rows_names).
  assert (Hnd1 : NoDup (names_of t1)).
  { apply Huniq. unfold unique_names. now rewrite Hf. }
  assert (Hb1 : In b (names_of t1)).
  { rewrite Hn1. apply in_map_iff. exists a. now rewrite String.eqb_refl. }
  assert (Ha1 : ~ In a (names_of t1)).
  { rewrite Hn1. intros H. apply in_map_iff in H as [x [E _]].
    destruct (String.eqb_spec x a); congruence. }
  set (w1 := mkWorld _ _ _ _ _).
  rewrite (update_name_renamed b a w1 t1 eq_refl (not_eq_sym Hne) Hnd1 Hb1 Ha1).
  subst w1.
  cbv zeta. cbn [snd file stdout]. unfold t1. cbn [rows seq].
  rewrite (rename_rows_back a b (rows t) Hb), Hf, <- app_assoc.
  split; [now destruct t|reflexivity].
Qed.

Lemma rename_there_and_back_witness :
  let w := start (Database (Some (mkTable [mkRow 1 "Alice"; mkRow 2 "Bob"] 2))) [] in
  let w1 := snd (update_name "Alice" "Carol" w) in
  let w2 := snd (update_name "Carol" "Alice" w1) in
  file w2 = Database (Some (mkTable [mkRow 1 "Alice"; mkRow 2 "Bob"] 2))
  /\ stdout w2 = [] ++ [MsgRenamed "Alice" "Carol"; MsgRenamed "Carol" "Alice"].
Proof.
  apply (rename_there_and_back
           (start (Database (Some (mkTable [mkRow 1 "Alice"; mkRow 2 "Bob"] 2))) [])
           (mkTable [mkRow 1 "Alice"; mkRow 2 "Bob"] 2) "Alice" "Carol").
  - reflexivity.
  - discriminate.
  - cbn. repeat constructor; cbn; intuition discriminate.
  - cbn. now left.
  - cbn. intros [E|[E|[]]]; discriminate E.
Defined.

(** ** More on the dispatcher *)

(** X18. The fault injection skips [initialize_db] (line 207).  On a
    database without the table, or one that already stores
    "TestErrorName", its INSERT itself fails (no such table, or the
    unique index, or at the rowid ceiling the refusal of sqlite that
    comes before it): the branch for sqlite3 errors reports it, the line
    "temporary insert" and the injected ValueError are never reached,
    the table is not created, the status is 0 and the file is
    unchanged. *)
Theorem fault_injection_insert_can_fail :
  forall (a : args.t) (w : world) (d : database),
    args.test_error a = true ->
    args.initialize a = false ->
    action_specified a = true ->
    file w = Database d ->
    d = None \/ In TestErrorName (stored_names (file w)) ->
    let e := SqliteError (match d with
                          | None => OperationalError
                          | Some t =>
                              if rowid_full t then OperationalError
                              else IntegrityError
                          end) in
    let (code, w') := run a w in
    code = 0
    /\ file w' = file w
    /\ stdout w' = stdout w ++ [MsgTestStart; MsgRolledBack e;
                                MsgDbErrorOccurred e; MsgTestEnd]
    /\ calls w' = calls w ++ [Connect; Execute (Insert TestErrorName);
                              Rollback; Close].
Proof.
  intros a w d Ht Hi Ha Hf Hd. unfold run, main. rewrite Ht, Hi, Ha.
  expose w. destruct d as [t|].
  - destruct Hd as [Hd|Hd]; [discriminate Hd|].
    cbn [stored_names] in Hd. apply has_name_In in Hd.
    step. destruct (rowid_full t); [tidy; repeat split|].
    rewrite Hd. tidy. repeat split.
  - tidy. repeat split.
Qed.

Lemma fault_injection_insert_can_fail_witness :
  let (code, w') :=
    run (args.mk None None None true false true) (start (Database None) [])
  in
  code = 0
  /\ file w' = Database None
  /\ stdout w' = [MsgTestStart; MsgRolledBack (SqliteError OperationalError);
                  MsgDbErrorOccurred (SqliteError OperationalError); MsgTestEnd]
  /\ calls w' = [Connect; Execute (Insert TestErrorName); Rollback; Close].
Proof.
  apply (fault_injection_insert_can_fail
           (args.mk None None None true false true)
           (start (Database None) []) None); try reflexivity.
  now left.
Defined.

(** X19. The command [-o] on every database: the table is made sure of
    first, so a fresh file is listed as empty rather than reported as
    an error; the listing of the stored names is written, the status is
    0, two scopes are opened and committed and the records are
    untouched. *)
Theorem output_command_lists_every_database :
  forall (w : world) (d : database),
    file w = Database d ->
    let (code, w') := run (args.mk None None None true false false) w in
    code = 0
    /\ stdout w' = stdout w ++ listing (stored_names (file w))
    /\ stored_names (file w') = stored_names (file w)
    /\ (exists t : names_table, file w' = Database (Some t))
    /\ calls w' = calls w ++ [Connect; Execute CreateTableIfNotExists; Commit;
                              Close; Connect; Execute SelectNamesOrdered;
                              Commit; Close].
Proof.
  intros w d Hf. unfold run, main.
  cbn [args.initialize args.test_error negb]. unfold action_specified.
  cbn [args.input args.update args.delete args.output truthy_str truthy_pair
       orb negb].
  unfold bind at 1. cbn [ret]. unfold bind at 1. cbn [ret].
  unfold bind at 1. rewrite (initialize_db_database w d Hf). cbv zeta.
  set (t := match d with Some t => t | None => empty_table end).
  set (w1 := mkWorld _ _ _ _ _).
  rewrite (print_all_names_table w1 t eq_refl). subst w1.
  cbn [exit_code file stdout calls stored_names]. rewrite Hf.
  assert (Hn : names_of t = stored_names (Database d))
    by (subst t; now destruct d).
  rewrite Hn, <- app_assoc. repeat split. now exists t.
Qed.

Lemma output_command_lists_every_database_witness :
  let (code, w') :=
    run (args.mk None None None true false false) (start (Database None) [])
  in
  code = 0
  /\ stdout w' = [] ++ listing (stored_names (Database None))
  /\ stored_names (file w') = stored_names (Database None)
  /\ (exists t : names_table, file w' = Database (Some t))
  /\ calls w' = [] ++ [Connect; Execute CreateTableIfNotExists; Commit;
                       Close; Connect; Execute SelectNamesOrdered;
                       Commit; Close].
Proof.
  apply (output_command_lists_every_database (start (Database None) []) None).
  reflexivity.
Defined.

(** X20. The command [-i NAME] with a non-empty name that is not
    stored, on every database (without the table, or with a table that
    has a rowid left to hand out): the table is made sure of, the name
    is stored as the last record, the success line is the only line
    written, no prompt is issued, the input is not read and the status
    is 0 - whatever the other action fields hold. *)
Theorem input_command_stores_fresh_name :
  forall (a : args.t) (w : world) (d : database) (n : string),
    args.input a = Some n ->
    n <> "" ->
    args.initialize a = false ->
    args.test_error a = false ->
    file w = Database d ->
    match d with
    | Some t => rowid_full t = false
    | None => True
    end ->
    ~ In n (stored_names (file w)) ->
    let (code, w') := run a w in
    code = 0
    /\ stored_names (file w') = stored_names (file w) ++ [n]
    /\ stdout w' = stdout w ++ [MsgSaved n]
    /\ stdin w' = stdin w.
Proof.
  intros a w d n Hin Hn Hi Ht Hf Hroom Hfree. unfold run, main.
  assert (Htr : truthy_str (Some n) = true).
  { cbn. now destruct (String.eqb_spec n ""). }
  assert (Ha : action_specified a = true)
    by (unfold action_specified; now rewrite Hin, Htr).
  rewrite Hi, Ht, Ha, Hin, Htr. cbn [negb].
  unfold bind at 1. cbn [ret]. unfold bind at 1. cbn [ret].
  unfold bind at 1. rewrite (initialize_db_database w d Hf). cbv zeta.
  set (t := match d with Some t => t | None => empty_table end).
  set (w1 := mkWorld _ _ _ _ _).
  assert (Hnames : names_of t = stored_names (file w))
    by (rewrite Hf; subst t; now destruct d).
  assert (Hroom' : rowid_full t = false)
    by (subst t; destruct d; [exact Hroom|reflexivity]).
  rewrite add_until_stored_turn.
  rewrite (add_name_fresh n w1 t eq_refl Hroom')
    by (apply has_name_not_In; fold (names_of t); now rewrite Hnames).
  subst w1. cbn [exit_code file stdout stdin stored_names].
  rewrite names_of_insert_row, Hnames. repeat split.
Qed.

Lemma input_command_stores_fresh_name_witness :
  let (code, w') :=
    run (args.mk (Some "Alice") None None false false false)
        (start (Database None) ["x"])
  in
  code = 0
  /\ stored_names (file w') = stored_names (Database None) ++ ["Alice"]
  /\ stdout w' = [] ++ [MsgSaved "Alice"]
  /\ stdin w' = ["x"].
Proof.
  apply (input_command_stores_fresh_name
           (args.mk (Some "Alice") None None false false false)
           (start (Database None) ["x"]) None "Alice"); try reflexivity.
  - discriminate.
  - cbn. intros [].
Defined.

(** ** The order of the listing *)

Lemma sorted_permutation_unique (l1 l2 : list string) :
  StronglySorted name_le l1 ->
  StronglySorted name_le l2 ->
  Permutation l1 l2 ->
  l1 = l2.
Proof.
  revert l2. induction l1 as [|x l1 IH]; intros l2 H1 H2 Hp.
  - apply Permutation_nil in Hp. now subst.
  - destruct l2 as [|y l2];
      [apply Permutation_sym, Permutation_nil in Hp; discriminate Hp|].
    inversion H1 as [|? ? Hs1 Hx]; subst.
    inversion H2 as [|? ? Hs2 Hy]; subst.
    assert (Hxy : x = y).
    { assert (Hx2 : In x (y :: l2))
        by (apply (Permutation_in _ Hp); now left).
      assert (Hy1 : In y (x :: l1))
        by (apply (Permutation_in _ (Permutation_sym Hp)); now left).
      destruct Hx2 as [E|Hx2]; [now subst|].
      destruct Hy1 as [E|Hy1]; [now subst|].
      apply String.leb_antisym.
      - exact (proj1 (Forall_forall _ _) Hx y Hy1).
      - exact (proj1 (Forall_forall _ _) Hy x Hx2). }
    subst y. f_equal. apply IH; try assumption.
    now apply Permutation_cons_inv with (a := x).
Qed.

(** X21. The listing does not depend on the order of the records: two
    tables that hold the same names, in whatever row order, are listed
    with the same lines. *)
Theorem listing_ignores_row_order :
  forall (w w' : world) (t t' : names_table),
    file w = Database (Some t) ->
    file w' = Database (Some t') ->
    Permutation (names_of t) (names_of t') ->
    stdout w = stdout w' ->
    stdout (snd (print_all_names w)) = stdout (snd (print_all_names w')).
Proof.
  intros w w' t t' Hf Hf' Hp Ho.
  rewrite (print_all_names_table w t Hf), (print_all_names_table w' t' Hf').
  cbn [snd stdout]. rewrite Ho. f_equal. unfold listing. f_equal.
  assert (Hs : sort_names (names_of t) = sort_names (names_of t')).
  { apply sorted_permutation_unique; try apply sort_names_sorted.
    rewrite <- (sort_names_perm (names_of t)), <- (sort_names_perm (names_of t')).
    exact Hp. }
  destruct (names_of t) as [|x l] eqn:E; destruct (names_of t') as [|x' l'] eqn:E'.
  - reflexivity.
  - apply Permutation_nil in Hp. discriminate Hp.
  - apply Permutation_sym, Permutation_nil in Hp. discriminate Hp.
  - exact (f_equal (numbered 0) Hs).
Qed.

Lemma listing_ignores_row_order_witness :
  stdout (snd (print_all_names
                 (start (Database (Some (mkTable [mkRow 1 "Bob"; mkRow 2 "Alice"] 2)))
                    [])))
  = stdout (snd (print_all_names
                   (start (Database (Some (mkTable [mkRow 5 "Alice"; mkRow 9 "Bob"] 9)))
                      []))).
Proof.
  apply (listing_ignores_row_order
           (start (Database (Some (mkTable [mkRow 1 "Bob"; mkRow 2 "Alice"] 2))) [])
           (start (Database (Some (mkTable [mkRow 5 "Alice"; mkRow 9 "Bob"] 9))) [])
           (mkTable [mkRow 1 "Bob"; mkRow 2 "Alice"] 2)
           (mkTable [mkRow 5 "Alice"; mkRow 9 "Bob"] 9)); try reflexivity.
  cbn. apply perm_swap.
Defined.

(** ** Scopes are always released *)

(** Closes a goal [scope_released w w'] once both states are computed. *)
Ltac released :=
  first
    [ exists []; split; [symmetry; apply app_nil_r|];
      left; split; reflexivity
    | eexists; split; [rewrite <- ?app_assoc; cbn [app]; reflexivity|];
      right; split; [reflexivity|];
      eexists; split; [reflexivity|]; repeat split ].

Lemma initialize_db_released (w : world) :
  file w <> Unopenable -> scope_released w (snd (initialize_db w)).
Proof.
  intros Hf. expose w.
  destruct f as [| |[t|]]; [contradiction| | |]; step; released.
Qed.

Lemma add_name_released (n : string) (w : world) :
  file w <> Unopenable -> scope_released w (snd (add_name n w)).
Proof.
  intros Hf. expose w.
  destruct f as [| |[t|]]; [contradiction| | |]; step; try released.
  destruct (rowid_full t); step; [released|].
  destruct (has_name n (rows t)); step; released.
Qed.

Lemma update_name_released (old_name new_name : string) (w : world) :
  file w <> Unopenable ->
  scope_released w (snd (update_name old_name new_name w)).
Proof.
  intros Hf. expose w. step.
  destruct (old_name =? new_name)%string; [released|].
  destruct f as [| |[t|]]; [contradiction| | |]; step; try released.
  destruct (filter (fun r => (name r =? old_name)%string) (rows t));
    cbn [map]; step; [released|].
  destruct (update_rows new_name old_name [] (rows t)) as [[rs k]|];
    step; [|released].
  destruct (k >? 0); step; released.
Qed.

Lemma delete_name_released (n : string) (w : world) :
  file w <> Unopenable -> scope_released w (snd (delete_name n w)).
Proof.
  intros Hf. expose w.
  destruct f as [| |[t|]]; [contradiction| | |]; step; try released.
  destruct (Z.of_nat (length (rows t) - length (delete_rows n (rows t))) >? 0);
    step; released.
Qed.

Lemma reset_db_released (w : world) :
  file w <> Unopenable -> scope_released w (snd (reset_db w)).
Proof.
  intros Hf. expose w.
  destruct i as [|s rest]; step; [released|].
  destruct (lower s =? "y")%string; step; [|released].
  destruct f as [| |[t|]]; [contradiction| | |]; step; released.
Qed.

Lemma print_all_names_released (w : world) :
  file w <> Unopenable -> scope_released w (snd (print_all_names w)).
Proof.
  intros Hne. destruct (file w) as [| |[t|]] eqn:Hf; [contradiction| | |].
  - expose w. step. released.
  - rewrite (print_all_names_table w t Hf). cbn [snd].
    unfold scope_released, settled. cbn [calls conn file].
    eexists. split; [reflexivity|]. right. split; [reflexivity|].
    eexists. split; [reflexivity|]. now repeat split.
  - expose w. step. released.
Qed.

(** X22. On a file that can be opened, every repository function
    either does not call sqlite3 at all (a rename to the same name, a
    reset that is declined or finds no input) or opens exactly one
    scope and releases it: the calls it adds start with [connect] and
    end with [close], with neither in between, and afterwards the
    connection is closed, no transaction is open and the connection
    saw exactly what the file holds - whether the function succeeded or
    reported an error. *)
Theorem every_scope_is_released :
  (forall (op : operation) (w : world),
      file w <> Unopenable ->
      scope_released w (snd (run_operation op w)))
  /\ (forall w : world,
         file w <> Unopenable ->
         scope_released w (snd (print_all_names w))).
Proof.
  split; [|exact print_all_names_released].
  intros op w Hf. destruct op as [|n|o n|n|]; cbn [run_operation].
  - now apply initialize_db_released.
  - unfold bind. pose proof (add_name_released n w Hf) as H.
    destruct (add_name n w) as [[b|e] w']; exact H.
  - now apply update_name_released.
  - now apply delete_name_released.
  - now apply reset_db_released.
Qed.

Lemma every_scope_is_released_witness :
  scope_released
    (start (Database (Some (mkTable [mkRow 1 "Alice"] 1))) [])
    (snd (run_operation (OpAdd "Alice")
            (start (Database (Some (mkTable [mkRow 1 "Alice"] 1))) [])))
  /\ scope_released
       (start (Database None) [])
       (snd (print_all_names (start (Database None) []))).
Proof.
  split.
  - apply (proj1 every_scope_is_released (OpAdd "Alice")
             (start (Database (Some (mkTable [mkRow 1 "Alice"] 1))) [])).
    discriminate.
  - apply (proj2 every_scope_is_released (start (Database None) [])).
    discriminate.
Defined.

(** ** [-init] *)

(** X23. With [-init] the run is the reset and nothing else, whatever
    other fields the arguments hold: the only statements ever executed
    are the DROP and the CREATE of [reset_db], so no name is added,
    renamed or deleted one by one, and the stored names afterwards are
    either what they were (declined, no input, or a file that is no
    database or cannot be opened) or none at all. *)
Theorem init_flag_only_resets :
  forall (a : args.t) (w : world),
    args.initialize a = true ->
    let w' := snd (run a w) in
    (stored_names (file w') = stored_names (file w)
     \/ stored_names (file w') = [])
    /\ (forall s : stmt,
           In (Execute s) (calls w') ->
           In (Execute s) (calls w)
           \/ s = DropTableIfExists \/ s = CreateTable).
Proof.
  intros a w Hi. unfold run, main. rewrite Hi. expose w.
  destruct i as [|s0 rest]; step; [split; [now left|now left]|].
  destruct (lower s0 =? "y")%string; step; [|split; [now left|now left]].
  destruct f as [| |[t|]]; step; rewrite <- ?app_assoc; cbn [app];
    (split; [first [now left | now right]|]);
    intros s Hs; apply in_app_iff in Hs; cbn [In] in Hs;
    intuition (try discriminate; try congruence).
Qed.

Lemma init_flag_only_resets_witness :
  let w := start (Database (Some (mkTable [mkRow 1 "Alice"] 1))) ["Y"] in
  let w' := snd (run (args.mk (Some "Bob") None None false true false) w) in
  (stored_names (file w') = stored_names (file w)
   \/ stored_names (file w') = [])
  /\ (forall s : stmt,
         In (Execute s) (calls w') ->
         In (Execute s) (calls w)
         \/ s = DropTableIfExists \/ s = CreateTable).
Proof.
  apply (init_flag_only_resets
           (args.mk (Some "Bob") None None false true false)
           (start (Database (Some (mkTable [mkRow 1 "Alice"] 1))) ["Y"])).
  reflexivity.
Defined.

(** ** Row ids *)

Lemma insert_row_ids (n : string) (t : names_table) :
  ids_in_order t -> ids_in_order (insert_row n t).
Proof.
  intros [Hnd Hle]. unfold ids_in_order, insert_row. cbn [rows seq].
  rewrite map_app. cbn [map id].
  assert (Hnew : forall i, In i (map id (rows t)) -> i < next_id t).
  { intros i Hi. apply in_map_iff in Hi as [r [<- Hr]].
    now apply next_id_above_ids. }
  split.
  - clear Hle. induction (map id (rows t)) as [|i l IH]; cbn [app].
    + constructor; [intros []|constructor].
    + inversion Hnd as [|? ? Hi Hl]; subst. constructor.
      * rewrite in_app_iff. cbn [In]. intros [H|[H|[]]]; [now apply Hi|].
        specialize (Hnew i (or_introl eq_refl)). lia.
      * apply IH; [assumption|]. intros j Hj. apply Hnew. now right.
  - apply Forall_app. split.
    + apply Forall_forall. intros i Hi. apply Hnew in Hi. lia.
    + constructor; [lia|constructor].
Qed.

Lemma update_rows_ids (new old : string) (todo done rs : list row) (k : Z) :
  update_rows new old done todo = Some (rs, k) ->
  map id rs = map id (done ++ todo).
Proof.
  revert done rs k. induction todo as [|r rest IH]; cbn [update_rows];
    intros done rs k H.
  - injection H as <- _. now rewrite app_nil_r.
  - destruct (name r =? old)%string.
    + destruct (has_name new (done ++ rest)); [discriminate|].
      destruct (update_rows new old (done ++ [mkRow (id r) new]) rest)
        as [[rs' k']|] eqn:Hrec; [|discriminate].
      injection H as <- _. rewrite (IH _ _ _ Hrec), <- app_assoc.
      rewrite !map_app. reflexivity.
    + rewrite (IH _ _ _ H), <- app_assoc. reflexivity.
Qed.

Lemma delete_rows_ids (n : string) (t : names_table) :
  ids_in_order t -> ids_in_order (mkTable (delete_rows n (rows t)) (seq t)).
Proof.
  intros [Hnd Hle]. unfold ids_in_order, delete_rows. cbn [rows seq].
  induction (rows t) as [|r rs IH]; cbn [filter map] in *; [now split|].
  inversion Hnd as [|? ? Hr Hrs]; subst.
  inversion Hle as [|? ? Hr' Hrs']; subst.
  destruct (IH Hrs Hrs') as [IH1 IH2].
  destruct (negb (name r =? n)%string); cbn [map]; [|now split].
  split; [|now constructor]. constructor; [|assumption].
  intros Hin. apply Hr. apply in_map_iff in Hin as [r' [E Hr'']].
  apply filter_In in Hr'' as [Hr'' _]. apply in_map_iff. now exists r'.
Qed.

Lemma run_operation_ids (op : operation) (w : world) :
  ids_ok (file w) -> ids_ok (file (snd (run_operation op w))).
Proof.
  intros H. destruct op as [|n|o n|n|]; cbn [run_operation]; expose w.
  - destruct f as [| |[t|]]; step; try exact H.
    split; [constructor|constructor].
  - destruct f as [| |[t|]]; step; try exact H.
    destruct (rowid_full t); step; [exact H|].
    destruct (has_name n (rows t)); step; [exact H|].
    now apply insert_row_ids.
  - step. destruct (o =? n)%string; [exact H|].
    destruct f as [| |[t|]]; step; try exact H.
    destruct (filter (fun r => (name r =? o)%string) (rows t));
      cbn [map]; step; [exact H|].
    destruct (update_rows n o [] (rows t)) as [[rs k]|] eqn:Hu;
      step; [|exact H].
    assert (Hrs : ids_in_order (mkTable rs (seq t))).
    { unfold ids_in_order. cbn [rows seq].
      rewrite (update_rows_ids _ _ _ _ _ _ Hu). exact H. }
    destruct (k >? 0); step; exact Hrs.
  - destruct f as [| |[t|]]; step; try exact H.
    destruct (Z.of_nat (length (rows t) - length (delete_rows n (rows t))) >? 0);
      step; now apply delete_rows_ids.
  - destruct i as [|s rest]; step; [exact H|].
    destruct (lower s =? "y")%string; step; [|exact H].
    destruct f as [| |[t|]]; step; try exact H;
      split; constructor.
Qed.

(** X24. The row ids stay in order: each of Initialize, Add, Rename,
    Delete and Reset keeps the ids of the table pairwise distinct and
    none above the AUTOINCREMENT counter (an Add takes the next id, a
    Rename keeps the ids, a Delete only removes rows, a Reset starts
    again from an empty table), so every file reachable from a file
    without records has this shape. *)
Theorem ids_stay_in_order :
  (forall (op : operation) (w : world),
      ids_ok (file w) -> ids_ok (file (snd (run_operation op w))))
  /\ (forall f : file_state, reachable f -> ids_ok f).
Proof.
  split; [exact run_operation_ids|].
  intros f H. induction H as [f Hf|op w _ IH].
  - destruct f as [| |[t|]]; cbn [ids_ok]; trivial.
    cbn [stored_names] in Hf. unfold names_of in Hf.
    apply map_eq_nil in Hf. unfold ids_in_order. rewrite Hf.
    split; constructor.
  - now apply run_operation_ids.
Qed.

Lemma ids_stay_in_order_witness :
  ids_ok
    (file (snd (run_operation (OpAdd "Carol")
                  (start (Database (Some (mkTable [mkRow 1 "Alice"; mkRow 4 "Bob"] 6)))
                     []))))
  /\ ids_ok
       (file (snd (run_operation (OpAdd "Alice") (start (Database None) [])))).
Proof.
  split.
  - apply (proj1 ids_stay_in_order).
    cbn. split.
    + repeat constructor; cbn; intuition discriminate.
    + repeat constructor; discriminate.
  - apply (proj2 ids_stay_in_order).
    apply reach_step. apply reach_initial. reflexivity.
Defined.

(** ** What the program never does *)

Lemma update_rows_count (new old : string) (todo done rs : list row) (k : Z) :
  update_rows new old done todo = Some (rs, k) ->
  0 <= k /\ (has_name old todo = true -> 0 < k).
Proof.
  revert done rs k. induction todo as [|r rest IH]; cbn [update_rows];
    intros done rs k H.
  - injection H as _ <-. split; [lia|discriminate].
  - unfold has_name. cbn [existsb]. fold (has_name old rest).
    destruct (name r =? old)%string; cbn [orb].
    + destruct (has_name new (done ++ rest)); [discriminate|].
      destruct (update_rows new old (done ++ [mkRow (id r) new]) rest)
        as [[rs' k']|] eqn:Hrec; [|discriminate].
      injection H as _ <-. destruct (IH _ _ _ Hrec) as [Hk _]. split; lia.
    + exact (IH _ _ _ H).
Qed.

Lemma filter_name_has_name (n : string) (rs : list row) (r : row)
      (others : list row) :
  filter (fun r => (name r =? n)%string) rs = r :: others ->
  has_name n rs = true.
Proof.
  intros H. apply has_name_In.
  assert (Hin : In r (filter (fun r => (name r =? n)%string) rs))
    by (rewrite H; now left).
  apply filter_In in Hin as [Hin E]. apply String.eqb_eq in E.
  apply in_map_iff. now exists r.
Qed.

(** X25. In a run of its own (no other writer between the SELECT and
    the UPDATE of one scope), [update_name] never writes the line
    "found but not changed": once the lookup has found the old name,
    the UPDATE either fails on the unique index or changes at least one
    row. *)
Theorem found_but_not_changed_is_never_written :
  forall (old_name new_name : string) (w : world),
    ~ In (MsgFoundNotChanged old_name) (stdout w) ->
    ~ In (MsgFoundNotChanged old_name)
         (stdout (snd (update_name old_name new_name w))).
Proof.
  intros old_name new_name w Hw. expose w. step.
  assert (Hline : forall extra : list line,
             ~ In (MsgFoundNotChanged old_name) extra ->
             ~ In (MsgFoundNotChanged old_name) (o ++ extra)).
  { intros extra He Hin. apply in_app_iff in Hin. tauto. }
  destruct (old_name =? new_name)%string;
    [step; apply Hline; cbn [In]; intuition discriminate|].
  destruct f as [| |[t|]]; step; rewrite <- ?app_assoc; cbn [app];
    try solve [apply Hline; cbn [In]; intuition discriminate].
  destruct (filter (fun r => (name r =? old_name)%string) (rows t))
    as [|r0 others] eqn:Hfil; cbn [map]; step;
    [apply Hline; cbn [In]; intuition discriminate|].
  destruct (update_rows new_name old_name [] (rows t)) as [[rs k]|] eqn:Hu;
    step; rewrite <- ?app_assoc; cbn [app];
    [|apply Hline; cbn [In]; intuition discriminate].
  destruct (update_rows_count _ _ _ _ _ _ Hu) as [_ Hk].
  specialize (Hk (filter_name_has_name _ _ _ _ Hfil)).
  apply Z.gtb_lt in Hk. rewrite Hk. step.
  apply Hline; cbn [In]; intuition discriminate.
Qed.

Lemma found_but_not_changed_is_never_written_witness :
  ~ In (MsgFoundNotChanged "Alice")
       (stdout (snd (update_name "Alice" "Bob"
                       (start (Database (Some (mkTable [mkRow 1 "Alice"] 1)))
                          [])))).
Proof.
  apply (found_but_not_changed_is_never_written "Alice" "Bob"
           (start (Database (Some (mkTable [mkRow 1 "Alice"] 1))) [])).
  cbn. intros [].
Defined.

Lemma add_loop_not_entered_reads_nothing (a : args.t) (w : world) :
  truthy_str (args.input a) = false ->
  stdin
    (snd ((if truthy_pair (args.update a) then
             match args.update a with
             | Some (old_name, new_name) => update_name old_name new_name
             | None => ret tt
             end
           else if truthy_str (args.delete a) then
             match args.delete a with
             | Some n => delete_name n
             | None => ret tt
             end
           else if args.output a then print_all_names
           else ret tt) w)) = stdin w.
Proof.
  intros _.
  destruct (args.update a) as [[o n]|]; cbn [truthy_pair].
  - expose w. step. destruct (o =? n)%string; [reflexivity|].
    destruct f as [| |[t|]]; step; try reflexivity.
    destruct (filter (fun r => (name r =? o)%string) (rows t));
      cbn [map]; step; [reflexivity|].
    destruct (update_rows n o [] (rows t)) as [[rs k]|]; step; [|reflexivity].
    destruct (k >? 0); reflexivity.
  - destruct (truthy_str (args.delete a)).
    + destruct (args.delete a) as [n|]; [|reflexivity].
      expose w. destruct f as [| |[t|]]; step; try reflexivity.
      destruct (Z.of_nat (length (rows t) - length (delete_rows n (rows t)))
                >? 0); reflexivity.
    + destruct (args.output a); [|reflexivity].
      destruct (file w) as [| |[t|]] eqn:Hf.
      * expose w. reflexivity.
      * expose w. reflexivity.
      * now rewrite (print_all_names_table w t Hf).
      * expose w. reflexivity.
Qed.

(** X26. Only [-init] and [-i] read standard input: a run without
    [-init] whose [-i] name is missing or empty - help, rename, delete,
    list, or the fault injection - leaves every input line unread. *)
Theorem only_init_and_input_read_stdin :
  forall (a : args.t) (w : world),
    args.initialize a = false ->
    truthy_str (args.input a) = false ->
    stdin (snd (run a w)) = stdin w.
Proof.
  intros a w Hi Hin. unfold run, main. rewrite Hi, Hin.
  unfold bind at 1. cbn [ret].
  destruct (action_specified a); [|now destruct w].
  unfold bind at 1. cbn [negb ret].
  destruct (args.test_error a); cbn [negb].
  - unfold bind at 1. cbn [ret]. expose w.
    destruct f as [| |[t|]]; step; try reflexivity.
    destruct (rowid_full t); [reflexivity|].
    destruct (has_name TestErrorName (rows t)); reflexivity.
  - unfold bind at 1.
    assert (Hinit : stdin (snd (initialize_db w)) = stdin w).
    { expose w. destruct f as [| |[t|]]; reflexivity. }
    destruct (initialize_db w) as [[[]|e] w1]; cbn [snd] in Hinit.
    + rewrite <- Hinit. cbv beta iota.
      assert (Hsnd : forall X : (unit + exn) * world,
                 snd (let (r, w') := X in (exit_code r, w')) = snd X)
        by (intros [r w']; reflexivity).
      rewrite Hsnd.
      exact (add_loop_not_entered_reads_nothing a w1 Hin).
    + exact Hinit.
Qed.

Lemma only_init_and_input_read_stdin_witness :
  stdin (snd (run (args.mk None (Some ("Alice", "Bob")) None false false false)
                (start (Database (Some (mkTable [mkRow 1 "Alice"] 1)))
                   ["y"; "Carol"])))
  = ["y"; "Carol"].
Proof.
  apply (only_init_and_input_read_stdin
           (args.mk None (Some ("Alice", "Bob")) None false false false)
           (start (Database (Some (mkTable [mkRow 1 "Alice"] 1))) ["y"; "Carol"]));
    reflexivity.
Defined.
